(** * Asset risk dashboard: the simulation engine of [src/calculations.ts]

    A shallow embedding of the engine and the properties its
    specification states about it.

    Conventions of the embedding.
    - A JavaScript [number] that carries a quantity (time, currency,
      likelihood) is read as a real number: [+ - * /], [Math.exp],
      [Math.cos], [Math.min], [Math.max], [Math.floor] are the functions of
      the same name on [R].  IEEE-754 rounding, overflow and the values NaN
      and Infinity are outside this reading; a division by zero is the one
      place where the code leaves the finite numbers, so every theorem about
      the record returned by [generateDashboardCurves] assumes that the
      divisors (lifespan, cycle length, [points - 1]) are not zero.
    - The sample count [points] and the loop counters are integers.
    - The generator of [mulberry32] works on 32-bit integers; it is embedded
      on [Z] with the conversions [ToInt32] and [ToUint32] written out.
    - A closure returned by [mulberry32] owns one mutable cell (its captured
      [seed]).  The cells of all live closures form the [store], which the
      functions that draw numbers thread explicitly.
    - A run-time exception is a value [Throws e] of the type [outcome].
    - Where a statement holds on the reals and fails on the doubles of the
      code, the module [Double] gives the lines concerned on IEEE-754
      binary64 numbers, and the failing input is computed there. *)

From Stdlib Require Import ZArith List Lia Reals Lra Zfloor.
From Stdlib Require Import Permutation.
From Stdlib Require String.
From Stdlib Require PrimFloat.
Import String.StringSyntax.
Delimit Scope string_scope with string.
Import ListNotations.

Set Implicit Arguments.

(** ** 32-bit integer operations of JavaScript *)

Module Int32.
Open Scope Z_scope.

Definition ToUint32 (z : Z) : Z := z mod 4294967296.

Definition ToInt32 (z : Z) : Z :=
  let u := ToUint32 z in
  if u <? 2147483648 then u else u - 4294967296.

(** [Math.imul a b] *)
Definition imul (a b : Z) : Z := ToInt32 (ToInt32 a * ToInt32 b).

(** [a ^ b] *)
Definition xor (a b : Z) : Z := ToInt32 (Z.lxor (ToInt32 a) (ToInt32 b)).

(** [a | b] *)
Definition or (a b : Z) : Z := ToInt32 (Z.lor (ToInt32 a) (ToInt32 b)).

(** [a >>> n] *)
Definition ushr (a n : Z) : Z := Z.shiftr (ToUint32 a) n.

End Int32.

(** ** Deterministic sequence generator *)

Module Rng.
Import Int32.

(** The increment [0x6d2b79f5] of the captured seed. *)
Definition gamma : Z := 0x6d2b79f5.

(** The body of the closure after [seed += 0x6d2b79f5]: from the new seed
    to the unsigned 32-bit numerator of the returned fraction. *)
Definition mix (seed : Z) : Z :=
  let t := seed in
  let t := imul (xor t (ushr t 15)) (or t 1) in
  let t := xor t (t + imul (xor t (ushr t 7)) (or t 61))%Z in
  ushr (xor t (ushr t 14)) 0.

(** One cell per closure: the current value of its [seed]. *)
Definition store : Type := list Z.

(** A computation that may create generators and draw from them. *)
Definition M (A : Type) : Type := store -> A * store.

Definition ret {A : Type} (a : A) : M A := fun s => (a, s).

Definition bind {A B : Type} (c : M A) (k : A -> M B) : M B :=
  fun s => let (a, s') := c s in k a s'.

(** A generator is the address of its cell. *)
Definition generator : Type := nat.

Fixpoint write (g : generator) (v : Z) (s : store) : store :=
  match s, g with
  | [], _ => []
  | _ :: s', O => v :: s'
  | c :: s', S g' => c :: write g' v s'
  end.

(** [mulberry32(seed)]: a fresh closure over its own copy of [seed]. *)
Definition mulberry32 (seed : Z) : M generator :=
  fun s => (length s, s ++ [seed]).

(** [rng()]: advance the captured seed and return the next fraction.  The
    captured seed is an integer-valued number; its addition is the integer
    addition as long as the seed stays within 2^53 in absolute value. *)
Definition call (g : generator) : M R :=
  fun s =>
    let seed := (nth g s 0 + gamma)%Z in
    ((IZR (mix seed) / 4294967296)%R, write g seed s).

(** The [k]-th value (from 0) that a generator created with [seed] returns. *)
Definition draw (seed : Z) (k : nat) : R :=
  (IZR (mix (seed + (Z.of_nat k + 1) * gamma)) / 4294967296)%R.

End Rng.

Import Rng.

Declare Scope rng_scope.
Delimit Scope rng_scope with rng.
Notation "x <- c ;; k" := (bind c (fun x => k))
  (at level 61, c at next level, right associativity) : rng_scope.
Notation "' p <- c ;; k" := (bind c (fun p => k))
  (at level 61, p pattern, c at next level, right associativity) : rng_scope.

Open Scope R_scope.

(** ** Data model *)

Inductive StrategyKey : Type := NoFix | FixInPlan | FixOnFail | FixOnRisk.

Record DashboardParams : Type := {
  lifespanYears : R;
  replacementCost : R;
  riskAlpha : R;
  minLof : R;
  cycleLengthYears : R;
  threshold : R;
  points : Z
}.

(** The fields [t] and [x] of the source are [cp_t] and [cp_x]. *)
Record CurvePoint : Type := {
  cp_t : R;
  cp_x : R;
  noFix : R;
  fixInPlan : R;
  fixOnFail : R;
  fixOnRisk : R
}.

(** [Record<StrategyKey, number>] *)
Module ByStrategy.
Record t : Type := mk {
  noFix : R;
  fixInPlan : R;
  fixOnFail : R;
  fixOnRisk : R
}.
Definition get (m : t) (k : StrategyKey) : R :=
  match k with
  | NoFix => noFix m
  | FixInPlan => fixInPlan m
  | FixOnFail => fixOnFail m
  | FixOnRisk => fixOnRisk m
  end.
End ByStrategy.

Record Curves : Type := {
  cost : list CurvePoint;
  risk : list CurvePoint;
  totalCosts : ByStrategy.t;
  averageRisk : ByStrategy.t;
  thresholdDollar : R
}.

(** The value of a curve point for a strategy key: [p[strategy]]. *)
Definition valueOf (k : StrategyKey) (p : CurvePoint) : R :=
  match k with
  | NoFix => noFix p
  | FixInPlan => fixInPlan p
  | FixOnFail => fixOnFail p
  | FixOnRisk => fixOnRisk p
  end.

Inductive JsError : Type := TypeError.

Inductive outcome (A : Type) : Type :=
| Returns (a : A)
| Throws (e : JsError).
Arguments Throws {A} e.

(** ** Probability-of-failure model *)

Definition logisticCurve (x alpha midpoint : R) : R :=
  1 / (1 + exp (- alpha * (x - midpoint))).

Definition calculateLof (ageNormalized lofAlpha minLof : R) : R :=
  let f := logisticCurve ageNormalized lofAlpha 0.7 in
  minLof + (1 - minLof) * f.

(** ** Helpers shared by the two generators *)

(** [Math.max(3, Math.floor(2 + 3 * Math.pow(1, 2)))] *)
Definition maxFailures : Z := Z.max 3 (2 + 3 * 1 ^ 2).

(** The counters [0, 1, ..., n-1] of [for (let i = 0; i < n; i++)]. *)
Definition upto (n : Z) : list nat := seq 0 (Z.to_nat n).

(** [xs[j]] for an index inside the array. *)
Definition at_ (xs : list R) (j : nat) : R := nth j xs 0.

(** [a % b] of JavaScript: the remainder has the sign of the dividend. *)
Definition truncate (q : R) : Z :=
  if Rle_dec 0 q then Zfloor q else Zceil q.

Definition remainder (a b : R) : R := a - b * IZR (truncate (a / b)).

(** [xs.sort((a, b) => a - b)] on numbers: ascending order. *)
Fixpoint insert (a : R) (xs : list R) : list R :=
  match xs with
  | [] => [a]
  | b :: xs' => if Rle_dec a b then a :: xs else b :: insert a xs'
  end.

Fixpoint sort (xs : list R) : list R :=
  match xs with
  | [] => []
  | a :: xs' => insert a (sort xs')
  end.

Open Scope rng_scope.

(** ** Cost curves *)

(** The body of the loop that draws the failure events of Fix-on-Fail in
    [generateCostCurves]: two draws per failure, the offset of the failure
    position and then the repair fraction. *)
Fixpoint costFailureLoop (rng : generator) (lifespan replacementCost : R)
    (counters : list nat) (failTimes failCosts : list R)
  : M (list R * list R) :=
  match counters with
  | [] => ret (failTimes, failCosts)
  | i :: counters' =>
      u <- call rng ;;
      let basePosition := 0.3 + ((INR i + 1) / IZR maxFailures) * 0.7 in
      let randomOffset := u * 0.1 - 0.05 in
      let failurePosition := Rmin 1 (Rmax 0.3 (basePosition + randomOffset)) in
      let failureTime := failurePosition * lifespan in
      v <- call rng ;;
      let repairFraction := 0.3 + v * 0.2 in
      costFailureLoop rng lifespan replacementCost counters'
        (failTimes ++ [failureTime])
        (failCosts ++ [repairFraction * replacementCost])
  end.

(** The failure schedule of the cost generator: [failTimes] and [failCosts]
    after the loop, drawn from a fresh [mulberry32(42)]. *)
Definition costFailureSchedule (lifespan replacementCost : R)
  : M (list R * list R) :=
  rng <- mulberry32 42 ;;
  costFailureLoop rng lifespan replacementCost (upto maxFailures) [] [].

Definition N_interventions : nat := 4.

(** The intervention times of Fix-on-Risk, for [k = 1 .. N_interventions]. *)
Definition interventionTimes (lifespan : R) : list R :=
  map (fun k => Rmin (0.3 + INR k * 0.15) 1 * lifespan) (seq 1 N_interventions).

(** One iteration of the sample loop of [generateCostCurves].  The four
    [cumulative...] variables are overwritten in every iteration, so the
    iteration does not depend on the previous one. *)
Definition costSample (lifespan replacementCost cycleLength : R) (points : Z)
    (failTimes failCosts interventions : list R) (i : nat) : CurvePoint :=
  let C_intervention := 0.2 * replacementCost in
  let baselineNoFixRate := 0.05 * replacementCost in
  let baselineFixInPlanRate := 0.02 * replacementCost in
  let baselineFixOnFailRate := 0.01 * replacementCost in
  let baselineFixOnRiskRate := 0.02 * replacementCost in
  let x := INR i / (IZR points - 1) in
  let t := x * lifespan in
  (* No Fix *)
  let baselineNoFix := (baselineNoFixRate * t) / lifespan in
  let catastrophicReplacement :=
    if Rge_dec t (0.9 * lifespan) then replacementCost else 0 in
  let cumulativeNoFix := baselineNoFix + catastrophicReplacement in
  (* Fix in Plan *)
  let baselineFixInPlan := (baselineFixInPlanRate * t) / lifespan in
  let nCycles := Zfloor (lifespan / cycleLength) in
  let C_cycle := 0.15 * replacementCost in
  let cycleCost :=
    fold_left
      (fun cycleCost c =>
         let tCycle := INR c * cycleLength in
         if Rge_dec t tCycle then cycleCost + C_cycle else cycleCost)
      (seq 1 (Z.to_nat nCycles)) 0 in
  let cumulativeFixInPlan := baselineFixInPlan + cycleCost in
  (* Fix on Fail *)
  let baselineFail := (baselineFixOnFailRate * t) / lifespan in
  let emergencyCost :=
    fold_left
      (fun emergencyCost j =>
         if Rge_dec t (at_ failTimes j)
         then emergencyCost + at_ failCosts j else emergencyCost)
      (seq 0 (length failTimes)) 0 in
  let cumulativeFixOnFail := baselineFail + emergencyCost in
  (* Fix on Risk *)
  let baselineRisk := (baselineFixOnRiskRate * t) / lifespan in
  let riskInterventionCost :=
    fold_left
      (fun riskInterventionCost tInt =>
         if Rge_dec t tInt
         then riskInterventionCost + C_intervention else riskInterventionCost)
      interventions 0 in
  let cumulativeFixOnRisk := baselineRisk + riskInterventionCost in
  {| cp_t := t;
     cp_x := x;
     noFix := cumulativeNoFix;
     fixInPlan := cumulativeFixInPlan;
     fixOnFail := cumulativeFixOnFail;
     fixOnRisk := cumulativeFixOnRisk |}.

(** The sample loop: one [result.push] per counter. *)
Fixpoint costLoop (sample : nat -> CurvePoint) (counters : list nat)
    (result : list CurvePoint) : list CurvePoint :=
  match counters with
  | [] => result
  | i :: counters' => costLoop sample counters' (result ++ [sample i])
  end.

Definition generateCostCurves
    (lifespan _costCurveAlpha replacementCost cycleLength : R) (points : Z)
  : M (list CurvePoint) :=
  '(failTimes, failCosts) <- costFailureSchedule lifespan replacementCost ;;
  let interventions := interventionTimes lifespan in
  ret (costLoop
         (costSample lifespan replacementCost cycleLength points
            failTimes failCosts interventions)
         (upto points) []).

(** ** Risk curves *)

(** The body of the loop that draws the failure times in
    [generateRiskCurves]: one draw per failure. *)
Fixpoint riskFailureLoop (rng : generator) (lifespan : R)
    (counters : list nat) (failTimes : list R) : M (list R) :=
  match counters with
  | [] => ret failTimes
  | i :: counters' =>
      u <- call rng ;;
      let basePosition := 0.3 + ((INR i + 1) / IZR maxFailures) * 0.7 in
      let randomOffset := u * 0.1 - 0.05 in
      let failurePosition := Rmin 1 (Rmax 0.3 (basePosition + randomOffset)) in
      let failureTime := failurePosition * lifespan in
      riskFailureLoop rng lifespan counters' (failTimes ++ [failureTime])
  end.

(** The failure schedule of the risk generator, before [failTimes.sort]. *)
Definition riskFailureSchedule (lifespan : R) : M (list R) :=
  rng <- mulberry32 42 ;;
  riskFailureLoop rng lifespan (upto maxFailures) [].

(** The variables that the sample loop of [generateRiskCurves] carries from
    one iteration to the next. *)
Record riskState : Type := {
  currentLof : R;
  lastFailureTime : R;
  failureIndex : nat
}.

(** The [while] loop that passes the failures before [t].  It ends when
    [failureIndex] reaches the length of [failTimes], so [length failTimes]
    iterations are always enough. *)
Fixpoint passFailures (fuel : nat) (failTimes : list R) (t baselineLof : R)
    (lastFailureTime : R) (failureIndex : nat) (lofFixOnFail : R)
  : R * nat * R :=
  match fuel with
  | O => (lastFailureTime, failureIndex, lofFixOnFail)
  | S fuel' =>
      match nth_error failTimes failureIndex with
      | Some failTime =>
          if Rgt_dec t failTime
          then passFailures fuel' failTimes t baselineLof
                 failTime (S failureIndex) (baselineLof * 2)
          else (lastFailureTime, failureIndex, lofFixOnFail)
      | None => (lastFailureTime, failureIndex, lofFixOnFail)
      end
  end.

(** [d || 1] *)
Definition orOne (d : R) : R := if Req_dec_T d 0 then 1 else d.

(** One iteration of the sample loop of [generateRiskCurves]. *)
Definition riskSample (lifespan riskAlpha minLof cof cycleLength threshold : R)
    (points : Z) (failTimes : list R) (st : riskState) (i : nat)
  : CurvePoint * riskState :=
  let thresholdLof := threshold in
  let x := INR i / (IZR points - 1) in
  let t := x * lifespan in
  let ageNormalized := x in
  (* No Fix *)
  let lofNoFix := calculateLof ageNormalized riskAlpha minLof in
  let riskNoFix := lofNoFix * cof in
  (* Fix in Plan *)
  let cyclePosition := remainder t cycleLength / cycleLength in
  let wave := (1 - cos (2 * PI * cyclePosition)) / 2 in
  let peakLof := minLof + (0.3 - minLof) * (1 + 0.5 * ageNormalized) in
  let lofFixInPlan := minLof + (peakLof - minLof) * wave in
  let riskFixInPlan := lofFixInPlan * cof in
  (* Fix on Fail *)
  let baselineLof := minLof * 2 in
  let '(lastFailureTime, failureIndex, lofFixOnFail) :=
    passFailures (length failTimes) failTimes t baselineLof
      (lastFailureTime st) (failureIndex st) baselineLof in
  let nextFailureTime :=
    match nth_error failTimes failureIndex with
    | Some failTime => failTime
    | None => lifespan
    end in
  let lofFixOnFail :=
    if Rlt_dec t nextFailureTime then
      let progress :=
        (t - lastFailureTime) / orOne (nextFailureTime - lastFailureTime) in
      let growth :=
        baselineLof
        + (0.9 - baselineLof) * logisticCurve progress (2 * riskAlpha) 0.6 in
      Rmin growth 0.999
    else if Req_dec_T t nextFailureTime then 1.0
    else lofFixOnFail in
  let riskFixOnFail := lofFixOnFail * cof in
  (* Fix on Risk *)
  let growthRate := 0.001 * riskAlpha * (1 + 2 * ageNormalized) in
  let currentLof := currentLof st + growthRate in
  let currentLof :=
    if Rge_dec currentLof thresholdLof then minLof * 1.5 else currentLof in
  let lofFixOnRisk := currentLof in
  let riskFixOnRisk := lofFixOnRisk * cof in
  ({| cp_t := t;
      cp_x := x;
      noFix := riskNoFix;
      fixInPlan := riskFixInPlan;
      fixOnFail := riskFixOnFail;
      fixOnRisk := riskFixOnRisk |},
   {| currentLof := currentLof;
      lastFailureTime := lastFailureTime;
      failureIndex := failureIndex |}).

(** The sample loop, threading the carried variables. *)
Fixpoint riskLoop (sample : riskState -> nat -> CurvePoint * riskState)
    (counters : list nat) (st : riskState) (result : list CurvePoint)
  : list CurvePoint :=
  match counters with
  | [] => result
  | i :: counters' =>
      let (p, st') := sample st i in
      riskLoop sample counters' st' (result ++ [p])
  end.

Definition generateRiskCurves
    (lifespan riskAlpha minLof cof cycleLength threshold : R) (points : Z)
  : M (list CurvePoint) :=
  failTimes <- riskFailureSchedule lifespan ;;
  let failTimes := sort failTimes in
  let st := {| currentLof := minLof * 1.5;
               lastFailureTime := 0;
               failureIndex := 0 |} in
  ret (riskLoop
         (riskSample lifespan riskAlpha minLof cof cycleLength threshold
            points failTimes)
         (upto points) st []).

(** ** Summary metrics *)

(** [xs[k]] for an integer index: [undefined] outside the array. *)
Definition index {A : Type} (xs : list A) (k : Z) : option A :=
  if (k <? 0)%Z then None else nth_error xs (Z.to_nat k).

(** Reading a property of [undefined] throws a [TypeError]. *)
Definition calculateTotalCosts (costPoints : list CurvePoint)
  : outcome ByStrategy.t :=
  match index costPoints (Z.of_nat (length costPoints) - 1) with
  | Some last =>
      Returns (ByStrategy.mk (noFix last) (fixInPlan last)
                 (fixOnFail last) (fixOnRisk last))
  | None => Throws TypeError
  end.

Definition calculateAverageRisk (riskPoints : list CurvePoint)
  : ByStrategy.t :=
  let n := INR (length riskPoints) in
  let sum :=
    fold_left
      (fun sum p =>
         ByStrategy.mk
           (ByStrategy.noFix sum + noFix p)
           (ByStrategy.fixInPlan sum + fixInPlan p)
           (ByStrategy.fixOnFail sum + fixOnFail p)
           (ByStrategy.fixOnRisk sum + fixOnRisk p))
      riskPoints (ByStrategy.mk 0 0 0 0) in
  ByStrategy.mk
    (ByStrategy.noFix sum / n)
    (ByStrategy.fixInPlan sum / n)
    (ByStrategy.fixOnFail sum / n)
    (ByStrategy.fixOnRisk sum / n).

(** ** Orchestrator *)

Definition generateDashboardCurves (params : DashboardParams)
  : M (outcome Curves) :=
  let lifespan := lifespanYears params in
  let cof := replacementCost params in
  let costCurveAlpha := riskAlpha params * 0.8 in
  costPoints <-
    generateCostCurves lifespan costCurveAlpha (replacementCost params)
      (cycleLengthYears params) (points params) ;;
  riskPoints <-
    generateRiskCurves lifespan (riskAlpha params) (minLof params) cof
      (cycleLengthYears params) (threshold params) (points params) ;;
  ret (match calculateTotalCosts costPoints with
       | Throws e => Throws e
       | Returns totalCosts =>
           let averageRisk := calculateAverageRisk riskPoints in
           let thresholdDollar := threshold params * cof in
           Returns {| cost := costPoints;
                      risk := riskPoints;
                      totalCosts := totalCosts;
                      averageRisk := averageRisk;
                      thresholdDollar := thresholdDollar |}
       end).

(** The default scenario of the dashboard. *)
Definition defaultParams : DashboardParams :=
  {| lifespanYears := 30;
     replacementCost := 1000000;
     riskAlpha := 6;
     minLof := 0.05;
     cycleLengthYears := 5;
     threshold := 0.4;
     points := 500 |}.

(** ** Plain-list readings used in the statements *)

(** The fraction computed from an advanced seed. *)
Definition fraction (seed : Z) : R := IZR (mix seed) / 4294967296.

(** The failure time computed in both generators from the loop counter [i]
    and the drawn fraction [u]. *)
Definition failureTimeAt (lifespan : R) (i : nat) (u : R) : R :=
  Rmin 1 (Rmax 0.3 (0.3 + ((INR i + 1) / IZR maxFailures) * 0.7
                    + (u * 0.1 - 0.05))) * lifespan.

Definition repairCostAt (replacementCost : R) (v : R) : R :=
  (0.3 + v * 0.2) * replacementCost.

(** Failure times of the cost generator when the cell holds [seed]:
    the offset is every second draw. *)
Fixpoint costTimesFrom (lifespan : R) (seed : Z) (counters : list nat)
  : list R :=
  match counters with
  | [] => []
  | i :: counters' =>
      failureTimeAt lifespan i (fraction (seed + gamma))
      :: costTimesFrom lifespan (seed + 2 * gamma) counters'
  end.

Fixpoint costCostsFrom (replacementCost : R) (seed : Z) (counters : list nat)
  : list R :=
  match counters with
  | [] => []
  | i :: counters' =>
      repairCostAt replacementCost (fraction (seed + 2 * gamma))
      :: costCostsFrom replacementCost (seed + 2 * gamma) counters'
  end.

(** Failure times of the risk generator when the cell holds [seed]:
    the offset is every draw. *)
Fixpoint riskTimesFrom (lifespan : R) (seed : Z) (counters : list nat)
  : list R :=
  match counters with
  | [] => []
  | i :: counters' =>
      failureTimeAt lifespan i (fraction (seed + gamma))
      :: riskTimesFrom lifespan (seed + gamma) counters'
  end.

(** The schedules that the two generators compute, as plain lists. *)
Definition costFailTimes (lifespan : R) : list R :=
  costTimesFrom lifespan 42 (upto maxFailures).

Definition costFailCosts (replacementCost : R) : list R :=
  costCostsFrom replacementCost 42 (upto maxFailures).

Definition riskFailTimes (lifespan : R) : list R :=
  riskTimesFrom lifespan 42 (upto maxFailures).

(** A list of numbers in ascending order. *)
Fixpoint ascending (xs : list R) : Prop :=
  match xs with
  | a :: (b :: _) as xs' => a <= b /\ ascending xs'
  | _ => True
  end.

(** The cost curve that [generateCostCurves] returns, without the store. *)
Definition costCurve (lifespan replacementCost cycleLength : R) (points : Z)
  : list CurvePoint :=
  map (costSample lifespan replacementCost cycleLength points
         (costFailTimes lifespan) (costFailCosts replacementCost)
         (interventionTimes lifespan))
      (upto points).

(** The sample loop of the risk generator, building its result from the
    front. *)
Fixpoint riskRun (sample : riskState -> nat -> CurvePoint * riskState)
    (counters : list nat) (st : riskState) : list CurvePoint :=
  match counters with
  | [] => []
  | i :: counters' =>
      let (p, st') := sample st i in p :: riskRun sample counters' st'
  end.

Definition riskInit (minLof : R) : riskState :=
  {| currentLof := minLof * 1.5; lastFailureTime := 0; failureIndex := 0 |}.

(** The risk curve that [generateRiskCurves] returns, without the store. *)
Definition riskCurve
    (lifespan riskAlpha minLof cof cycleLength threshold : R) (points : Z)
  : list CurvePoint :=
  riskRun
    (riskSample lifespan riskAlpha minLof cof cycleLength threshold points
       (sort (riskFailTimes lifespan)))
    (upto points) (riskInit minLof).

Definition costCurveOf (p : DashboardParams) : list CurvePoint :=
  costCurve (lifespanYears p) (replacementCost p) (cycleLengthYears p)
    (points p).

Definition riskCurveOf (p : DashboardParams) : list CurvePoint :=
  riskCurve (lifespanYears p) (riskAlpha p) (minLof p) (replacementCost p)
    (cycleLengthYears p) (threshold p) (points p).

(** The record that [generateDashboardCurves] assembles from the two curves
    once [calculateTotalCosts] has returned [totals]. *)
Definition curvesOf (p : DashboardParams) (totals : ByStrategy.t) : Curves :=
  {| cost := costCurveOf p;
     risk := riskCurveOf p;
     totalCosts := totals;
     averageRisk := calculateAverageRisk (riskCurveOf p);
     thresholdDollar := threshold p * replacementCost p |}.

(** The result of [generateDashboardCurves], without the store. *)
Definition dashboardOutcome (p : DashboardParams) : outcome Curves :=
  match calculateTotalCosts (costCurveOf p) with
  | Throws e => Throws e
  | Returns totals => Returns (curvesOf p totals)
  end.

(** The same parameter record with another steepness [riskAlpha]. *)
Definition withRiskAlpha (alpha : R) (p : DashboardParams) : DashboardParams :=
  {| lifespanYears := lifespanYears p;
     replacementCost := replacementCost p;
     riskAlpha := alpha;
     minLof := minLof p;
     cycleLengthYears := cycleLengthYears p;
     threshold := threshold p;
     points := points p |}.

(** The arithmetic mean of a list of numbers, as the specification words
    it: the sum of the values over their number. *)
Definition arithmeticMean (xs : list R) : R :=
  fold_right Rplus 0 xs / INR (length xs).

(** The per-strategy values of a curve point as a summary map. *)
Definition valuesOf (p : CurvePoint) : ByStrategy.t :=
  ByStrategy.mk (noFix p) (fixInPlan p) (fixOnFail p) (fixOnRisk p).

(** A curve of [points] samples, sample [i] taken at the normalized time
    [i / (points - 1)] and the absolute time [i / (points - 1) * lifespan]. *)
Definition evenlySampled (lifespan : R) (points : Z)
    (curve : list CurvePoint) : Prop :=
  length curve = Z.to_nat points /\
  forall i, (i < Z.to_nat points)%nat ->
    exists pt, nth_error curve i = Some pt /\
               cp_x pt = INR i / (IZR points - 1) /\
               cp_t pt = INR i / (IZR points - 1) * lifespan.

(** The first normalized time is 0 and the last is 1. *)
Definition spansUnit (curve : list CurvePoint) : Prop :=
  (exists first, nth_error curve 0 = Some first /\ cp_x first = 0) /\
  (exists last, nth_error curve (length curve - 1) = Some last /\
                cp_x last = 1).

(** Absolute time strictly increases along the curve. *)
Definition timeIncreasing (curve : list CurvePoint) : Prop :=
  forall i j pi pj, (i < j)%nat ->
    nth_error curve i = Some pi -> nth_error curve j = Some pj ->
    cp_t pi < cp_t pj.

(** The default scenario with a negative lifespan. *)
Definition negativeLifespanParams : DashboardParams :=
  {| lifespanYears := -30;
     replacementCost := 1000000;
     riskAlpha := 6;
     minLof := 0.05;
     cycleLengthYears := 5;
     threshold := 0.4;
     points := 500 |}.

(** The Fix-on-Risk likelihood after one sample: add the growth, then
    compare with the threshold and reset, then use. *)
Definition sawtoothNext (riskAlpha minLof threshold x current : R) : R :=
  let grown := current + 0.001 * riskAlpha * (1 + 2 * x) in
  if Rge_dec grown threshold then minLof * 1.5 else grown.

(** The Fix-in-Plan likelihood at normalized time [x] and time [t]. *)
Definition planLof (minLof cycleLength x t : R) : R :=
  let wave := (1 - cos (2 * PI * (remainder t cycleLength / cycleLength))) / 2 in
  let peakLof := minLof + (0.3 - minLof) * (1 + 0.5 * x) in
  minLof + (peakLof - minLof) * wave.

(** The default scenario with a floor of 0.95, a cycle of 20 years and two
    samples. *)
Definition highFloorParams : DashboardParams :=
  {| lifespanYears := 30;
     replacementCost := 1000000;
     riskAlpha := 6;
     minLof := 0.95;
     cycleLengthYears := 20;
     threshold := 0.4;
     points := 2 |}.

(** [n] successive calls of a generator, collecting the returned values. *)
Fixpoint calls (g : generator) (n : nat) : M (list R) :=
  match n with
  | O => ret []
  | S n' => (u <- call g ;; us <- calls g n' ;; ret (u :: us))%rng
  end.

(** ** The recommendation shown by the dashboard ([src/App.tsx]) *)

Record StrategyMeta : Type := {
  key : StrategyKey;
  name : String.string;
  description : String.string
}.

Definition strategyMeta : list StrategyMeta :=
  [ {| key := NoFix;
       name := "No Fix"%string;
       description := "Lowest upfront, highest end-of-life cost."%string |};
    {| key := FixInPlan;
       name := "Fix in Plan"%string;
       description := "Predictable cycles with moderate cost."%string |};
    {| key := FixOnFail;
       name := "Fix on Fail"%string;
       description := "Unpredictable failures and emergency repairs."%string |};
    {| key := FixOnRisk;
       name := "Fix on Risk"%string;
       description := "Optimized balance of cost and risk."%string |} ].

(** The value of [bestScore]: a number or [Number.POSITIVE_INFINITY]. *)
Inductive BestScore : Type :=
| PositiveInfinity
| Finite (score : R).

(** [score < bestScore] *)
Definition below (score : R) (bestScore : BestScore) : bool :=
  match bestScore with
  | PositiveInfinity => true
  | Finite b => if Rlt_dec score b then true else false
  end.

(** [cost + avgRisk] for the strategy [k]. *)
Definition scoreOf (curves : Curves) (k : StrategyKey) : R :=
  let cost := ByStrategy.get (totalCosts curves) k in
  let avgRisk := ByStrategy.get (averageRisk curves) k in
  cost + avgRisk.

(** The immediately invoked function that computes [recommended].  The
    initial [best] is [strategyMeta[0]]; the result is [None] only for an
    empty [strategyMeta], which the literal above excludes. *)
Definition recommended (curves : Curves) : option StrategyMeta :=
  match strategyMeta with
  | [] => None
  | first :: _ =>
      Some
        (fst
           (fold_left
              (fun (acc : StrategyMeta * BestScore) s =>
                 let (best, bestScore) := acc in
                 let score := scoreOf curves (key s) in
                 if below score bestScore then (s, Finite score)
                 else (best, bestScore))
              strategyMeta (first, PositiveInfinity)))
  end.

(** The position of a strategy in [strategyMeta]. *)
Definition rank (k : StrategyKey) : nat :=
  match k with
  | NoFix => 0
  | FixInPlan => 1
  | FixOnFail => 2
  | FixOnRisk => 3
  end.

(** ** Readings used in the further statements *)

(** A curve whose values for strategy [k] never decrease from one sample to
    the next. *)
Definition nonDecreasing (k : StrategyKey) (curve : list CurvePoint) : Prop :=
  forall i j pi pj, (i <= j)%nat ->
    nth_error curve i = Some pi -> nth_error curve j = Some pj ->
    valueOf k pi <= valueOf k pj.

(** The sum of a list of numbers. *)
Definition total (xs : list R) : R := fold_right Rplus 0 xs.

(** The sum accumulated by a loop of the cost generator at time [t]: the
    amount [amount a] of every event [a] with [t >= time a]. *)
Definition stepSum {A : Type} (t : R) (time amount : A -> R) (events : list A)
  : R :=
  total (map (fun a => if Rge_dec t (time a) then amount a else 0) events).

(** ** The binary64 reading of the likelihood lines

    The same source lines on IEEE-754 doubles (primitive floats), for the
    statements that hold on the reals and fail on the doubles of the code.
    [Math.exp] belongs to the runtime; [Math_exp] stands for it: like every
    implementation it returns 0 below -746 and Infinity above 710, and in
    between it agrees with the runtime to about twelve significant digits
    (a Taylor polynomial of [x / 4096] squared twelve times).  It is used
    only where the result does not depend on the digits beyond. *)

Module Double.
Import PrimFloat.
#[local] Set Warnings "-inexact-float".
Local Open Scope float_scope.

Definition square (x : float) : float := x * x.

Definition Math_exp (x : float) : float :=
  if x <? -746 then 0
  else if 710 <? x then infinity
  else
    let r := x / 4096 in
    let p := 1 + r * (1 + r / 2 * (1 + r / 3 * (1 + r / 4 * (1 + r / 5 *
             (1 + r / 6 * (1 + r / 7 * (1 + r / 8 * (1 + r / 9 *
             (1 + r / 10 * (1 + r / 11 * (1 + r / 12))))))))))) in
    square (square (square (square (square (square
    (square (square (square (square (square (square p))))))))))).

Definition logisticCurve (x alpha midpoint : float) : float :=
  1 / (1 + Math_exp (- alpha * (x - midpoint))).

Definition calculateLof (ageNormalized lofAlpha minLof : float) : float :=
  let f := logisticCurve ageNormalized lofAlpha 0.7 in
  minLof + (1 - minLof) * f.

(** The No-Fix lines of iteration [i] of the sample loop of
    [generateRiskCurves]. *)
Definition riskNoFix (riskAlpha minLof cof points i : float) : float :=
  let x := i / (points - 1) in
  let ageNormalized := x in
  let lofNoFix := calculateLof ageNormalized riskAlpha minLof in
  let riskNoFix := lofNoFix * cof in
  riskNoFix.

(** The Fix-on-Risk lines of iteration [i] of the same loop: the recorded
    risk and the likelihood carried to the next iteration. *)
Definition riskFixOnRisk (riskAlpha minLof cof threshold points : float)
    (currentLof i : float) : float * float :=
  let thresholdLof := threshold in
  let x := i / (points - 1) in
  let ageNormalized := x in
  let growthRate := 0.001 * riskAlpha * (1 + 2 * ageNormalized) in
  let currentLof := currentLof + growthRate in
  let currentLof :=
    if thresholdLof <=? currentLof then minLof * 1.5 else currentLof in
  let lofFixOnRisk := currentLof in
  let riskFixOnRisk := lofFixOnRisk * cof in
  (riskFixOnRisk, currentLof).

End Double.

(** * Properties *)

(** ** The generator store *)

Section Store.

Lemma nth_fresh (s : store) (v : Z) : nth (length s) (s ++ [v]) 0%Z = v.
Proof. induction s as [|c s IH]; simpl; auto. Qed.

Lemma write_fresh (s : store) (v w : Z) :
  write (length s) w (s ++ [v]) = s ++ [w].
Proof. induction s as [|c s IH]; simpl; [reflexivity | now rewrite IH]. Qed.

Lemma call_fresh (s : store) (v : Z) :
  call (length s) (s ++ [v]) = (fraction (v + gamma), s ++ [(v + gamma)%Z]).
Proof.
  unfold call, fraction. cbv zeta. now rewrite nth_fresh, write_fresh.
Qed.

Lemma mulberry32_run (seed : Z) (s : store) :
  mulberry32 seed s = (length s, s ++ [seed]).
Proof. reflexivity. Qed.

Lemma draw_fraction (seed : Z) (k : nat) :
  draw seed k = fraction (seed + (Z.of_nat k + 1) * gamma).
Proof. reflexivity. Qed.

(** Every returned fraction lies in [0, 1). *)
Lemma fraction_unit (seed : Z) : 0 <= fraction seed < 1.
Proof.
  unfold fraction.
  assert (H : (0 <= mix seed < 4294967296)%Z).
  { unfold mix, Int32.ushr. rewrite Z.shiftr_0_r.
    unfold Int32.ToUint32. apply Z.mod_pos_bound. lia. }
  destruct H as [H0 H1]. apply IZR_le in H0. apply IZR_lt in H1.
  split.
  - apply Rmult_le_pos; [exact H0|]. left. apply Rinv_0_lt_compat. lra.
  - apply Rmult_lt_reg_r with 4294967296; [lra|].
    unfold Rdiv. rewrite Rmult_assoc, Rinv_l by lra. lra.
Qed.

(** The values returned by [n] calls of a generator whose cell holds
    [seed] are [draw seed 0], ..., [draw seed (n-1)]; the cells of the other
    generators are left as they are. *)
Lemma calls_run (n : nat) :
  forall (s : store) (seed : Z),
    calls (length s) n (s ++ [seed])
    = (map (draw seed) (seq 0 n), s ++ [(seed + Z.of_nat n * gamma)%Z]).
Proof.
  induction n as [|n IH]; intros s seed.
  - cbn. unfold ret. do 3 f_equal. lia.
  - cbn [calls]. unfold bind at 1. rewrite call_fresh.
    unfold bind at 1. rewrite IH. unfold ret.
    cbn [seq map]. rewrite <- seq_shift, map_map.
    assert (Hhead : fraction (seed + gamma) = draw seed 0)
      by (unfold draw, fraction; do 3 f_equal; lia).
    assert (Htail : map (draw (seed + gamma)) (seq 0 n)
                    = map (fun k => draw seed (S k)) (seq 0 n)).
    { apply map_ext. intros k. unfold draw. do 3 f_equal. lia. }
    rewrite Hhead, Htail. do 3 f_equal. lia.
Qed.

(** Two generators created with the same seed return the same values. *)
Lemma same_seed_same_sequence (seed : Z) (n : nat) (s1 s2 : store) :
  fst ((g <- mulberry32 seed ;; calls g n) s1)
  = fst ((g <- mulberry32 seed ;; calls g n) s2).
Proof.
  unfold bind. rewrite !mulberry32_run, !calls_run. reflexivity.
Qed.

End Store.

(** ** Failure schedules without the store *)

Lemma costFailureLoop_run lifespan replacementCost counters :
  forall (s : store) (seed : Z) (failTimes failCosts : list R),
    costFailureLoop (length s) lifespan replacementCost counters
      failTimes failCosts (s ++ [seed])
    = ((failTimes ++ costTimesFrom lifespan seed counters,
        failCosts ++ costCostsFrom replacementCost seed counters),
       s ++ [(seed + 2 * Z.of_nat (length counters) * gamma)%Z]).
Proof.
  induction counters as [|i counters IH]; intros s seed ft fc.
  - simpl. unfold ret. rewrite !app_nil_r. do 3 f_equal. lia.
  - cbn [costFailureLoop]. unfold bind at 1. rewrite call_fresh.
    unfold bind at 1. rewrite call_fresh.
    rewrite IH. cbn [costTimesFrom costCostsFrom].
    rewrite <- !app_assoc. cbn [app].
    replace (seed + gamma + gamma)%Z with (seed + 2 * gamma)%Z by lia.
    unfold failureTimeAt, repairCostAt.
    do 3 f_equal. cbn [length]. lia.
Qed.

Lemma riskFailureLoop_run lifespan counters :
  forall (s : store) (seed : Z) (failTimes : list R),
    riskFailureLoop (length s) lifespan counters failTimes (s ++ [seed])
    = (failTimes ++ riskTimesFrom lifespan seed counters,
       s ++ [(seed + Z.of_nat (length counters) * gamma)%Z]).
Proof.
  induction counters as [|i counters IH]; intros s seed ft.
  - simpl. unfold ret. rewrite !app_nil_r. do 3 f_equal. lia.
  - cbn [riskFailureLoop]. unfold bind at 1. rewrite call_fresh.
    rewrite IH. cbn [riskTimesFrom].
    rewrite <- !app_assoc. cbn [app].
    unfold failureTimeAt.
    do 3 f_equal. cbn [length]. lia.
Qed.

Lemma costFailureSchedule_run lifespan replacementCost (s : store) :
  costFailureSchedule lifespan replacementCost s
  = ((costFailTimes lifespan, costFailCosts replacementCost),
     s ++ [(42 + 10 * gamma)%Z]).
Proof.
  unfold costFailureSchedule, bind. rewrite mulberry32_run.
  rewrite costFailureLoop_run. reflexivity.
Qed.

Lemma riskFailureSchedule_run lifespan (s : store) :
  riskFailureSchedule lifespan s
  = (riskFailTimes lifespan, s ++ [(42 + 5 * gamma)%Z]).
Proof.
  unfold riskFailureSchedule, bind. rewrite mulberry32_run.
  rewrite riskFailureLoop_run. reflexivity.
Qed.

(** ** The two failure schedules on the default scenario *)

Section Schedules.

Ltac eval_mix :=
  repeat match goal with
  | |- context [mix ?z] =>
      let v := eval vm_compute in (mix z) in change (mix z) with v
  end.

Lemma upto_maxFailures : upto maxFailures = [0; 1; 2; 3; 4]%nat.
Proof. reflexivity. Qed.

Lemma costFailTimes_draws (lifespan : R) :
  costFailTimes lifespan
  = [failureTimeAt lifespan 0 (draw 42 0);
     failureTimeAt lifespan 1 (draw 42 2);
     failureTimeAt lifespan 2 (draw 42 4);
     failureTimeAt lifespan 3 (draw 42 6);
     failureTimeAt lifespan 4 (draw 42 8)].
Proof.
  unfold costFailTimes. rewrite upto_maxFailures.
  cbn [costTimesFrom]. rewrite !draw_fraction.
  repeat (f_equal; [f_equal; f_equal; lia|]). reflexivity.
Qed.

Lemma riskFailTimes_draws (lifespan : R) :
  riskFailTimes lifespan
  = [failureTimeAt lifespan 0 (draw 42 0);
     failureTimeAt lifespan 1 (draw 42 1);
     failureTimeAt lifespan 2 (draw 42 2);
     failureTimeAt lifespan 3 (draw 42 3);
     failureTimeAt lifespan 4 (draw 42 4)].
Proof.
  unfold riskFailTimes. rewrite upto_maxFailures.
  cbn [riskTimesFrom]. rewrite !draw_fraction.
  repeat (f_equal; [f_equal; f_equal; lia|]). reflexivity.
Qed.

(** The first ten numerators produced from the seed 42. *)
Lemma draws_of_42 :
  map (fun k => draw 42 k) (seq 0 10)
  = map (fun n => IZR n / 4294967296)
      [2581720956; 1925393290; 3661312704; 2876485805; 750819978;
       2261697747; 1173505300; 2683257857; 3717185310; 2028586305]%Z.
Proof.
  cbn [map seq]. unfold draw. eval_mix. reflexivity.
Qed.

Lemma draw_42 (k : nat) (n : Z) :
  nth_error [2581720956; 1925393290; 3661312704; 2876485805; 750819978;
             2261697747; 1173505300; 2683257857; 3717185310; 2028586305]%Z k
  = Some n ->
  draw 42 k = IZR n / 4294967296.
Proof.
  intros H.
  do 10 (destruct k as [|k];
         [injection H as <-; unfold draw; eval_mix; reflexivity|]).
  destruct k; discriminate.
Qed.

End Schedules.

Section Divergence.

Lemma failureTimeAt_unclamped (lifespan : R) (i : nat) (u : R) :
  0.3 <= 0.3 + ((INR i + 1) / 5) * 0.7 + (u * 0.1 - 0.05) <= 1 ->
  failureTimeAt lifespan i u
  = (0.3 + ((INR i + 1) / 5) * 0.7 + (u * 0.1 - 0.05)) * lifespan.
Proof.
  intros [Hlo Hhi]. unfold failureTimeAt.
  change (IZR maxFailures) with 5.
  rewrite Rmax_right by exact Hlo. rewrite Rmin_right by exact Hhi.
  reflexivity.
Qed.

Lemma sort_ascending (xs : list R) : ascending xs -> sort xs = xs.
Proof.
  induction xs as [|a xs IH]; [reflexivity|].
  intros H. cbn [sort].
  destruct xs as [|b xs]; [reflexivity|].
  destruct H as [Hab H]. rewrite (IH H). cbn [insert].
  destruct (Rle_dec a b); [reflexivity | contradiction].
Qed.

(** The failure times of the two generators, as products with the
    lifespan.  The last failure of the cost schedule is clamped to the end
    of life. *)
Lemma costFailTimes_values (lifespan : R) :
  costFailTimes lifespan
  = [(0.44 + (2581720956 / 4294967296 * 0.1 - 0.05)) * lifespan;
     (0.58 + (3661312704 / 4294967296 * 0.1 - 0.05)) * lifespan;
     (0.72 + (750819978 / 4294967296 * 0.1 - 0.05)) * lifespan;
     (0.86 + (1173505300 / 4294967296 * 0.1 - 0.05)) * lifespan;
     1 * lifespan].
Proof.
  rewrite costFailTimes_draws.
  rewrite (@draw_42 0 _ eq_refl), (@draw_42 2 _ eq_refl),
    (@draw_42 4 _ eq_refl), (@draw_42 6 _ eq_refl), (@draw_42 8 _ eq_refl).
  rewrite !failureTimeAt_unclamped by (simpl INR; lra).
  simpl INR. repeat (f_equal; [lra|]).
  unfold failureTimeAt. change (IZR maxFailures) with 5. simpl INR.
  rewrite Rmax_right by lra. rewrite Rmin_left by lra. reflexivity.
Qed.

Lemma riskFailTimes_values (lifespan : R) :
  riskFailTimes lifespan
  = [(0.44 + (2581720956 / 4294967296 * 0.1 - 0.05)) * lifespan;
     (0.58 + (1925393290 / 4294967296 * 0.1 - 0.05)) * lifespan;
     (0.72 + (3661312704 / 4294967296 * 0.1 - 0.05)) * lifespan;
     (0.86 + (2876485805 / 4294967296 * 0.1 - 0.05)) * lifespan;
     (1 + (750819978 / 4294967296 * 0.1 - 0.05)) * lifespan].
Proof.
  rewrite riskFailTimes_draws.
  rewrite (@draw_42 0 _ eq_refl), (@draw_42 1 _ eq_refl),
    (@draw_42 2 _ eq_refl), (@draw_42 3 _ eq_refl), (@draw_42 4 _ eq_refl).
  rewrite !failureTimeAt_unclamped by (simpl INR; lra).
  simpl INR. repeat (f_equal; [lra|]). f_equal. lra.
Qed.

(** For a positive lifespan the risk schedule is ascending as drawn, so
    sorting it changes nothing. *)
Lemma riskFailTimes_sorted (lifespan : R) :
  0 < lifespan -> sort (riskFailTimes lifespan) = riskFailTimes lifespan.
Proof.
  intros H. apply sort_ascending. rewrite riskFailTimes_values.
  cbn [ascending]. repeat split; nra.
Qed.

(** The two schedules differ for every positive lifespan. *)
Lemma schedules_differ (lifespan : R) :
  0 < lifespan ->
  costFailTimes lifespan <> riskFailTimes lifespan /\
  costFailTimes lifespan <> sort (riskFailTimes lifespan).
Proof.
  intros H. rewrite (riskFailTimes_sorted H).
  rewrite costFailTimes_values, riskFailTimes_values.
  split; intros E; injection E; intros; nra.
Qed.

End Divergence.

(** C1 (the code departs from the claim).  On the default scenario
    (lifespan 30, replacement cost 1_000_000) the failure schedule that
    [generateCostCurves] draws and the one that [generateRiskCurves] draws,
    each from its own [mulberry32(42)], agree on the first failure time
    only: the cost generator consumes two draws per failure and the risk
    generator one, so the second failure falls near 18.46 years in the cost
    schedule and near 17.24 years in the risk schedule, and the two lists of
    five failure times are different, before and after the risk generator
    sorts its list. *)
Theorem C1_failure_schedules_diverge :
  forall s : store,
    let costTimes := fst (fst (costFailureSchedule 30 1000000 s)) in
    let riskTimes := fst (riskFailureSchedule 30 s) in
    length costTimes = 5%nat /\ length riskTimes = 5%nat /\
    nth 0 costTimes 0 = nth 0 riskTimes 0 /\
    18.45 < nth 1 costTimes 0 < 18.46 /\
    17.24 < nth 1 riskTimes 0 < 17.25 /\
    costTimes <> riskTimes /\
    costTimes <> sort riskTimes.
Proof.
  intros s. cbv zeta.
  rewrite costFailureSchedule_run, riskFailureSchedule_run. cbn [fst].
  rewrite riskFailTimes_sorted by lra.
  rewrite costFailTimes_values, riskFailTimes_values. cbn [nth length].
  assert (D : (0.58 + (3661312704 / 4294967296 * 0.1 - 0.05)) * 30
              <> (0.58 + (1925393290 / 4294967296 * 0.1 - 0.05)) * 30)
    by lra.
  repeat split; try lra; intros E; injection E; intros; lra.
Qed.

(** ** The generators without the store *)

Section Runs.

Lemma costLoop_map (sample : nat -> CurvePoint) (counters : list nat) :
  forall result, costLoop sample counters result = result ++ map sample counters.
Proof.
  induction counters as [|i counters IH]; intros result; cbn [costLoop map].
  - now rewrite app_nil_r.
  - rewrite IH, <- app_assoc. reflexivity.
Qed.

Lemma riskLoop_run sample (counters : list nat) :
  forall st result,
    riskLoop sample counters st result = result ++ riskRun sample counters st.
Proof.
  induction counters as [|i counters IH]; intros st result;
    cbn [riskLoop riskRun].
  - now rewrite app_nil_r.
  - destruct (sample st i) as [p st']. rewrite IH, <- app_assoc. reflexivity.
Qed.

Lemma generateCostCurves_run lifespan alpha replacementCost cycleLength points
    (s : store) :
  generateCostCurves lifespan alpha replacementCost cycleLength points s
  = (costCurve lifespan replacementCost cycleLength points,
     s ++ [(42 + 10 * gamma)%Z]).
Proof.
  unfold generateCostCurves, bind. rewrite costFailureSchedule_run.
  unfold ret. rewrite costLoop_map. reflexivity.
Qed.

Lemma generateRiskCurves_run lifespan riskAlpha minLof cof cycleLength
    threshold points (s : store) :
  generateRiskCurves lifespan riskAlpha minLof cof cycleLength threshold
    points s
  = (riskCurve lifespan riskAlpha minLof cof cycleLength threshold points,
     s ++ [(42 + 5 * gamma)%Z]).
Proof.
  unfold generateRiskCurves, bind. rewrite riskFailureSchedule_run.
  unfold ret. rewrite riskLoop_run. reflexivity.
Qed.

Lemma generateDashboardCurves_run (p : DashboardParams) (s : store) :
  generateDashboardCurves p s
  = (dashboardOutcome p,
     (s ++ [(42 + 10 * gamma)%Z]) ++ [(42 + 5 * gamma)%Z]).
Proof.
  unfold generateDashboardCurves, bind.
  rewrite generateCostCurves_run, generateRiskCurves_run.
  unfold ret, dashboardOutcome, curvesOf, costCurveOf, riskCurveOf.
  destruct (calculateTotalCosts _); reflexivity.
Qed.

(** *** Shape of the curves *)

Lemma upto_length (n : Z) : length (upto n) = Z.to_nat n.
Proof. unfold upto. apply length_seq. Qed.

Lemma upto_nth_error (n : Z) (i : nat) :
  (i < Z.to_nat n)%nat -> nth_error (upto n) i = Some i.
Proof.
  intros H. unfold upto.
  rewrite (nth_error_nth' _ 0%nat) by (now rewrite length_seq).
  now rewrite seq_nth.
Qed.

Lemma costCurve_length lifespan replacementCost cycleLength points :
  length (costCurve lifespan replacementCost cycleLength points)
  = Z.to_nat points.
Proof. unfold costCurve. now rewrite length_map, upto_length. Qed.

Lemma costCurve_nth_error lifespan replacementCost cycleLength points i :
  (i < Z.to_nat points)%nat ->
  nth_error (costCurve lifespan replacementCost cycleLength points) i
  = Some (costSample lifespan replacementCost cycleLength points
            (costFailTimes lifespan) (costFailCosts replacementCost)
            (interventionTimes lifespan) i).
Proof.
  intros H. unfold costCurve.
  now rewrite nth_error_map, upto_nth_error.
Qed.

Lemma riskRun_length sample (counters : list nat) :
  forall st, length (riskRun sample counters st) = length counters.
Proof.
  induction counters as [|i counters IH]; intros st; cbn [riskRun length].
  - reflexivity.
  - destruct (sample st i) as [p st']. cbn [length]. now rewrite IH.
Qed.

Lemma riskCurve_length lifespan riskAlpha minLof cof cycleLength threshold
    points :
  length (riskCurve lifespan riskAlpha minLof cof cycleLength threshold points)
  = Z.to_nat points.
Proof. unfold riskCurve. now rewrite riskRun_length, upto_length. Qed.

(** An invariant [Inv] of the carried variables that every iteration
    preserves gives a property [P] of every sample, paired with its loop
    counter. *)
Lemma riskRun_invariant sample (Inv : riskState -> Prop)
    (P : nat -> CurvePoint -> Prop) (counters : list nat) :
  (forall st i, In i counters -> Inv st ->
     P i (fst (sample st i)) /\ Inv (snd (sample st i))) ->
  forall st, Inv st -> Forall2 P counters (riskRun sample counters st).
Proof.
  induction counters as [|i counters IH]; intros Hstep st Hst;
    cbn [riskRun].
  - constructor.
  - destruct (Hstep st i (or_introl eq_refl) Hst) as [HP HI].
    destruct (sample st i) as [p st']. cbn [fst snd] in HP, HI.
    constructor; [exact HP|].
    apply IH; [|exact HI].
    intros st0 j Hj. apply Hstep. now right.
Qed.

Lemma Forall2_nth_error {A B : Type} (P : A -> B -> Prop) (xs : list A)
    (ys : list B) :
  Forall2 P xs ys ->
  forall i a b, nth_error xs i = Some a -> nth_error ys i = Some b -> P a b.
Proof.
  induction 1 as [|x y xs ys Hxy H IH]; intros i a b Ha Hb.
  - destruct i; discriminate.
  - destruct i as [|i]; cbn in Ha, Hb.
    + injection Ha as <-. injection Hb as <-. exact Hxy.
    + eapply IH; eassumption.
Qed.

Lemma Forall2_Forall_r {A B : Type} (P : A -> B -> Prop) (Q : B -> Prop)
    (xs : list A) (ys : list B) :
  Forall2 P xs ys -> (forall a b, In a xs -> P a b -> Q b) -> Forall Q ys.
Proof.
  induction 1 as [|x y xs ys Hxy H IH]; intros HPQ; constructor.
  - apply (HPQ x); [now left | exact Hxy].
  - apply IH. intros a b Ha. apply HPQ. now right.
Qed.

Lemma upto_In (n : Z) (i : nat) : In i (upto n) <-> (i < Z.to_nat n)%nat.
Proof. unfold upto. rewrite in_seq. lia. Qed.

End Runs.

(** ** Orchestrator: outcome, determinism, summaries *)

Section Orchestrator.

Lemma calculateTotalCosts_empty : calculateTotalCosts [] = Throws TypeError.
Proof. reflexivity. Qed.

Lemma calculateTotalCosts_last (costPoints : list CurvePoint) (i : nat)
    (last : CurvePoint) :
  length costPoints = S i ->
  nth_error costPoints i = Some last ->
  calculateTotalCosts costPoints = Returns (valuesOf last).
Proof.
  intros Hlen Hlast. unfold calculateTotalCosts, index. rewrite Hlen.
  replace (Z.of_nat (S i) - 1)%Z with (Z.of_nat i) by lia.
  destruct (Z.ltb_spec (Z.of_nat i) 0) as [C|_]; [lia|].
  rewrite Nat2Z.id, Hlast. reflexivity.
Qed.

(** The last sample of the cost curve. *)
Lemma costCurve_last (p : DashboardParams) :
  (1 <= points p)%Z ->
  exists last,
    nth_error (costCurveOf p) (Z.to_nat (points p) - 1) = Some last /\
    dashboardOutcome p = Returns (curvesOf p (valuesOf last)).
Proof.
  intros Hp. unfold costCurveOf.
  eexists. split.
  - apply costCurve_nth_error. lia.
  - unfold dashboardOutcome, costCurveOf.
    erewrite calculateTotalCosts_last; [reflexivity | |].
    + rewrite costCurve_length. instantiate (1 := (Z.to_nat (points p) - 1)%nat).
      lia.
    + apply costCurve_nth_error. lia.
Qed.

Lemma dashboardOutcome_throws (p : DashboardParams) :
  (points p <= 0)%Z -> dashboardOutcome p = Throws TypeError.
Proof.
  intros Hp. unfold dashboardOutcome, costCurveOf, costCurve, upto.
  replace (Z.to_nat (points p)) with 0%nat by lia. reflexivity.
Qed.

End Orchestrator.

(** C4.  Two invocations of [generateDashboardCurves] with the same
    parameter record return the same outcome, whatever generator cells
    earlier invocations left behind: the outcome does not depend on the
    incoming store, a second invocation run after the first returns what the
    first returned (curves and summaries alike), and each invocation only
    adds its own two cells, created from the seed 42, to the store. *)
Theorem C4_simulate_deterministic :
  forall (p : DashboardParams) (s1 s2 : store),
    fst (generateDashboardCurves p s1) = fst (generateDashboardCurves p s2) /\
    (let (first, s') := generateDashboardCurves p s1 in
     let (second, _) := generateDashboardCurves p s' in
     first = second) /\
    snd (generateDashboardCurves p s1)
    = s1 ++ [(42 + 10 * gamma)%Z; (42 + 5 * gamma)%Z].
Proof.
  intros p s1 s2. rewrite !generateDashboardCurves_run. cbn [fst snd].
  repeat split. now rewrite <- app_assoc.
Qed.

(** C10.  The steepness argument of [generateCostCurves] has no effect: the
    generator is the same computation for any two values of it.  So the cost
    curve and the total costs of [generateDashboardCurves] are the same for
    any two values of [riskAlpha], and so is the error when the call
    throws. *)
Theorem C10_cost_ignores_steepness :
  (forall lifespan alpha1 alpha2 replacementCost cycleLength points,
     generateCostCurves lifespan alpha1 replacementCost cycleLength points
     = generateCostCurves lifespan alpha2 replacementCost cycleLength points)
  /\
  (forall (p : DashboardParams) (alpha : R) (s1 s2 : store),
     match fst (generateDashboardCurves p s1),
           fst (generateDashboardCurves (withRiskAlpha alpha p) s2) with
     | Returns c1, Returns c2 =>
         cost c1 = cost c2 /\ totalCosts c1 = totalCosts c2
     | Throws e1, Throws e2 => e1 = e2
     | _, _ => False
     end).
Proof.
  split; [reflexivity|].
  intros p alpha s1 s2. rewrite !generateDashboardCurves_run. cbn [fst].
  unfold dashboardOutcome.
  change (costCurveOf (withRiskAlpha alpha p)) with (costCurveOf p).
  destruct (calculateTotalCosts (costCurveOf p)) as [totals|[]].
  - split; reflexivity.
  - reflexivity.
Qed.

(** ** Sampling grid of the two curves *)

Section Grid.

Variables (lifespan : R) (points : Z).

Lemma costCurve_evenlySampled replacementCost cycleLength :
  evenlySampled lifespan points
    (costCurve lifespan replacementCost cycleLength points).
Proof.
  split; [apply costCurve_length|].
  intros i Hi. eexists. split; [now apply costCurve_nth_error|].
  split; reflexivity.
Qed.

Lemma riskSample_grid riskAlpha minLof cof cycleLength threshold failTimes
    (st : riskState) (i : nat) :
  let pt := fst (riskSample lifespan riskAlpha minLof cof cycleLength
                   threshold points failTimes st i) in
  cp_x pt = INR i / (IZR points - 1) /\
  cp_t pt = INR i / (IZR points - 1) * lifespan /\
  noFix pt = calculateLof (INR i / (IZR points - 1)) riskAlpha minLof * cof.
Proof.
  unfold riskSample.
  destruct (passFailures _ _ _ _ _ _ _) as [[last idx] lof].
  cbn. repeat split.
Qed.

Lemma riskCurve_grid riskAlpha minLof cof cycleLength threshold :
  Forall2
    (fun i pt =>
       cp_x pt = INR i / (IZR points - 1) /\
       cp_t pt = INR i / (IZR points - 1) * lifespan /\
       noFix pt
       = calculateLof (INR i / (IZR points - 1)) riskAlpha minLof * cof)
    (upto points)
    (riskCurve lifespan riskAlpha minLof cof cycleLength threshold points).
Proof.
  unfold riskCurve.
  apply riskRun_invariant with (Inv := fun _ => True); [|exact I].
  intros st i _ _. split; [apply riskSample_grid | exact I].
Qed.

Lemma riskCurve_evenlySampled riskAlpha minLof cof cycleLength threshold :
  evenlySampled lifespan points
    (riskCurve lifespan riskAlpha minLof cof cycleLength threshold points).
Proof.
  split; [apply riskCurve_length|].
  intros i Hi.
  pose proof (riskCurve_grid riskAlpha minLof cof cycleLength threshold) as G.
  destruct (nth_error (riskCurve lifespan riskAlpha minLof cof cycleLength
                         threshold points) i) as [pt|] eqn:E.
  - exists pt. split; [reflexivity|].
    destruct (Forall2_nth_error G i (upto_nth_error _ Hi) E) as (Hx & Ht & _).
    split; assumption.
  - apply nth_error_None in E. rewrite riskCurve_length in E. lia.
Qed.

Lemma evenlySampled_spansUnit (curve : list CurvePoint) :
  (2 <= points)%Z -> evenlySampled lifespan points curve -> spansUnit curve.
Proof.
  intros Hp [Hlen Hs]. split.
  - destruct (Hs 0%nat) as (pt & Hn & Hx & _); [lia|].
    exists pt. split; [exact Hn|]. rewrite Hx. simpl INR.
    unfold Rdiv. apply Rmult_0_l.
  - destruct (Hs (Z.to_nat points - 1)%nat) as (pt & Hn & Hx & _); [lia|].
    exists pt. rewrite Hlen. split; [exact Hn|]. rewrite Hx.
    rewrite minus_INR by lia. rewrite INR_IZR_INZ, Z2Nat.id by lia.
    simpl INR. apply IZR_le in Hp. field. lra.
Qed.

Lemma evenlySampled_timeIncreasing (curve : list CurvePoint) :
  (2 <= points)%Z -> 0 < lifespan ->
  evenlySampled lifespan points curve -> timeIncreasing curve.
Proof.
  intros Hp Hl [Hlen Hs] i j pi pj Hij Hi Hj.
  assert (Hjn : (j < Z.to_nat points)%nat).
  { rewrite <- Hlen. apply nth_error_Some. congruence. }
  destruct (Hs i) as (pi' & Hi' & _ & Hti); [lia|].
  destruct (Hs j) as (pj' & Hj' & _ & Htj); [lia|].
  assert (pi' = pi) by congruence. assert (pj' = pj) by congruence.
  subst pi' pj'. rewrite Hti, Htj.
  apply IZR_le in Hp. apply lt_INR in Hij.
  apply Rmult_lt_compat_r; [exact Hl|].
  apply Rmult_lt_compat_r; [|exact Hij].
  apply Rinv_0_lt_compat. lra.
Qed.

End Grid.

(** C8.  For [points >= 2] and a positive lifespan (and a cycle length
    that is not zero, so that no division by zero occurs),
    [generateDashboardCurves] returns a record whose cost curve and risk
    curve both have exactly [points] samples; sample [i] of either curve has
    normalized time [i / (points - 1)] and absolute time
    [i / (points - 1) * lifespan]; the first normalized time is 0, the last
    is 1, and the absolute times strictly increase along either curve. *)
Theorem C8_curve_length_and_time_grid :
  forall (p : DashboardParams) (s : store),
    (2 <= points p)%Z -> 0 < lifespanYears p -> cycleLengthYears p <> 0 ->
    exists c : Curves,
      fst (generateDashboardCurves p s) = Returns c /\
      evenlySampled (lifespanYears p) (points p) (cost c) /\
      evenlySampled (lifespanYears p) (points p) (risk c) /\
      spansUnit (cost c) /\ spansUnit (risk c) /\
      timeIncreasing (cost c) /\ timeIncreasing (risk c).
Proof.
  intros p s Hp Hl _. rewrite generateDashboardCurves_run. cbn [fst].
  destruct (@costCurve_last p) as (last & _ & ->); [lia|].
  eexists. split; [reflexivity|]. cbn [cost risk curvesOf].
  pose proof (costCurve_evenlySampled (lifespanYears p) (points p)
                (replacementCost p) (cycleLengthYears p)) as HC.
  pose proof (riskCurve_evenlySampled (lifespanYears p) (points p)
                (riskAlpha p) (minLof p) (replacementCost p)
                (cycleLengthYears p) (threshold p)) as HR.
  repeat split;
    first [ exact (proj1 HC) | exact (proj2 HC) | exact (proj1 HR)
          | exact (proj2 HR)
          | eapply (proj1 (evenlySampled_spansUnit Hp HC))
          | eapply (proj2 (evenlySampled_spansUnit Hp HC))
          | eapply (proj1 (evenlySampled_spansUnit Hp HR))
          | eapply (proj2 (evenlySampled_spansUnit Hp HR))
          | idtac ].
  - eapply evenlySampled_timeIncreasing; eassumption.
  - eapply evenlySampled_timeIncreasing; eassumption.
Qed.

Lemma C8_curve_length_and_time_grid_witness :
  exists c : Curves,
    fst (generateDashboardCurves defaultParams []) = Returns c /\
    evenlySampled 30 500 (cost c) /\
    evenlySampled 30 500 (risk c) /\
    spansUnit (cost c) /\ spansUnit (risk c) /\
    timeIncreasing (cost c) /\ timeIncreasing (risk c).
Proof.
  apply (@C8_curve_length_and_time_grid defaultParams []).
  - simpl. lia.
  - simpl. lra.
  - simpl. lra.
Defined.

(** ** Summary metrics *)

Section Summary.

(** The running sums of [calculateAverageRisk] are the sums of the four
    columns. *)
Lemma averageRisk_sums (riskPoints : list CurvePoint) :
  forall a b c d,
    fold_left
      (fun sum p =>
         ByStrategy.mk
           (ByStrategy.noFix sum + noFix p)
           (ByStrategy.fixInPlan sum + fixInPlan p)
           (ByStrategy.fixOnFail sum + fixOnFail p)
           (ByStrategy.fixOnRisk sum + fixOnRisk p))
      riskPoints (ByStrategy.mk a b c d)
    = ByStrategy.mk
        (a + fold_right Rplus 0 (map noFix riskPoints))
        (b + fold_right Rplus 0 (map fixInPlan riskPoints))
        (c + fold_right Rplus 0 (map fixOnFail riskPoints))
        (d + fold_right Rplus 0 (map fixOnRisk riskPoints)).
Proof.
  induction riskPoints as [|p ps IH]; intros a b c d; cbn.
  - f_equal; lra.
  - rewrite IH. f_equal; lra.
Qed.

Lemma calculateAverageRisk_mean (riskPoints : list CurvePoint)
    (k : StrategyKey) :
  ByStrategy.get (calculateAverageRisk riskPoints) k
  = arithmeticMean (map (valueOf k) riskPoints).
Proof.
  unfold calculateAverageRisk, arithmeticMean.
  rewrite averageRisk_sums, length_map.
  destruct k; cbn; rewrite Rplus_0_l; reflexivity.
Qed.

End Summary.

(** C9.  For [points >= 2] (and a lifespan and a cycle length that are not
    zero, so that no division by zero occurs), [generateDashboardCurves]
    returns a record in which the total cost of each strategy is that strategy's value at the
    last point of the cost curve, the average risk of each strategy is the
    arithmetic mean of that strategy's values over all points of the risk
    curve, and the threshold in dollars is the threshold fraction times the
    replacement cost. *)
Theorem C9_summaries :
  forall (p : DashboardParams) (s : store),
    (2 <= points p)%Z -> lifespanYears p <> 0 -> cycleLengthYears p <> 0 ->
    exists (c : Curves) (last : CurvePoint),
      fst (generateDashboardCurves p s) = Returns c /\
      nth_error (cost c) (length (cost c) - 1) = Some last /\
      (forall k, ByStrategy.get (totalCosts c) k = valueOf k last) /\
      (forall k, ByStrategy.get (averageRisk c) k
                 = arithmeticMean (map (valueOf k) (risk c))) /\
      thresholdDollar c = threshold p * replacementCost p.
Proof.
  intros p s Hp _ _. rewrite generateDashboardCurves_run. cbn [fst].
  destruct (@costCurve_last p) as (last & Hlast & ->); [lia|].
  exists (curvesOf p (valuesOf last)), last.
  cbn [cost risk totalCosts averageRisk thresholdDollar curvesOf].
  split; [reflexivity|]. split.
  - replace (length (costCurveOf p)) with (Z.to_nat (points p))
      by (symmetry; apply costCurve_length).
    exact Hlast.
  - split; [intros []; reflexivity|].
    split; [intros k; apply calculateAverageRisk_mean | reflexivity].
Qed.

Lemma C9_summaries_witness :
  exists (c : Curves) (last : CurvePoint),
    fst (generateDashboardCurves defaultParams []) = Returns c /\
    nth_error (cost c) (length (cost c) - 1) = Some last /\
    (forall k, ByStrategy.get (totalCosts c) k = valueOf k last) /\
    (forall k, ByStrategy.get (averageRisk c) k
               = arithmeticMean (map (valueOf k) (risk c))) /\
    thresholdDollar c = 0.4 * 1000000.
Proof.
  apply (@C9_summaries defaultParams []).
  - simpl. lia.
  - simpl. lra.
  - simpl. lra.
Defined.

(** ** Parameters outside the intended domain *)

(** C2 (counterexample).  With a lifespan of -30 years and the other
    parameters of the default scenario, [generateDashboardCurves] raises no
    error: it returns a record with 500 cost samples and 500 risk samples. *)
Lemma C2_negative_lifespan_returns :
  lifespanYears negativeLifespanParams <= 0 /\
  exists c : Curves,
    fst (generateDashboardCurves negativeLifespanParams []) = Returns c /\
    length (cost c) = 500%nat /\ length (risk c) = 500%nat.
Proof.
  split; [simpl; lra|].
  rewrite generateDashboardCurves_run. cbn [fst].
  destruct (@costCurve_last negativeLifespanParams) as (last & _ & ->);
    [simpl; lia|].
  eexists. split; [reflexivity|]. cbn [cost risk curvesOf].
  unfold costCurveOf, riskCurveOf.
  rewrite costCurve_length, riskCurve_length. split; reflexivity.
Qed.

(** C2 (as amended).  [generateDashboardCurves] checks none of its
    parameters.  Where no division by zero occurs (lifespan and cycle length
    not zero, [points] not 1), the only error it raises is the [TypeError]
    of reading the last element of an empty cost curve, exactly when
    [points <= 0]; for every other record, negative lifespans and cycle
    lengths included, it returns a record whose curves have [points] samples
    each. *)
Theorem C2_no_parameter_validation :
  forall (p : DashboardParams) (s : store),
    lifespanYears p <> 0 -> cycleLengthYears p <> 0 -> points p <> 1%Z ->
    if (points p <=? 0)%Z
    then fst (generateDashboardCurves p s) = Throws TypeError
    else exists c : Curves,
        fst (generateDashboardCurves p s) = Returns c /\
        length (cost c) = Z.to_nat (points p) /\
        length (risk c) = Z.to_nat (points p).
Proof.
  intros p s _ _ _. rewrite generateDashboardCurves_run. cbn [fst].
  destruct (Z.leb_spec (points p) 0) as [Hp|Hp].
  - now apply dashboardOutcome_throws.
  - destruct (@costCurve_last p) as (last & _ & ->); [lia|].
    eexists. split; [reflexivity|]. cbn [cost risk curvesOf].
    unfold costCurveOf, riskCurveOf.
    now rewrite costCurve_length, riskCurve_length.
Qed.

(** The amended statement at a record with a negative lifespan. *)
Lemma C2_no_parameter_validation_witness :
  exists c : Curves,
    fst (generateDashboardCurves negativeLifespanParams []) = Returns c /\
    length (cost c) = 500%nat /\ length (risk c) = 500%nat.
Proof.
  apply (@C2_no_parameter_validation negativeLifespanParams []).
  - simpl. lra.
  - simpl. lra.
  - simpl. lia.
Defined.

(** ** The No-Fix cost step *)

Section NoFixStep.

Variables (lifespan replacementCost cycleLength : R) (points : Z).
Variables (failTimes failCosts interventions : list R).

Let sample :=
  costSample lifespan replacementCost cycleLength points
    failTimes failCosts interventions.

Lemma costSample_time (i : nat) :
  cp_x (sample i) = INR i / (IZR points - 1) /\
  cp_t (sample i) = INR i / (IZR points - 1) * lifespan.
Proof. split; reflexivity. Qed.

Lemma costSample_noFix_before (i : nat) :
  cp_t (sample i) < 0.9 * lifespan ->
  noFix (sample i) = 0.05 * replacementCost * cp_t (sample i) / lifespan.
Proof.
  intros H. unfold sample, costSample in *. cbn [noFix cp_t] in *.
  destruct (Rge_dec _ _) as [C|_]; [lra | apply Rplus_0_r].
Qed.

Lemma costSample_noFix_after (i : nat) :
  0.9 * lifespan <= cp_t (sample i) ->
  noFix (sample i)
  = 0.05 * replacementCost * cp_t (sample i) / lifespan + replacementCost.
Proof.
  intros H. unfold sample, costSample in *. cbn [noFix cp_t] in *.
  destruct (Rge_dec _ _) as [_|C]; [reflexivity | lra].
Qed.

End NoFixStep.

Lemma INR_literal (n : nat) : INR n = IZR (Z.of_nat n).
Proof. apply INR_IZR_INZ. Qed.

(** Between samples 449 and 450 of the default grid the No-Fix cost rises
    by the step and by one sample of baseline drift. *)
Lemma noFix_rise_at_step (cycleLength : R) (pre post : CurvePoint) :
  nth_error (costCurve 30 1000000 cycleLength 500) 449 = Some pre ->
  nth_error (costCurve 30 1000000 cycleLength 500) 450 = Some post ->
  noFix post - noFix pre = 1000000 + 50000 / 499.
Proof.
  rewrite !costCurve_nth_error by (simpl; lia).
  intros [= <-] [= <-].
  rewrite costSample_noFix_after, costSample_noFix_before;
    rewrite ?(proj2 (costSample_time _ _ _ _ _ _ _ _)), !INR_literal;
    change (Z.of_nat 450) with 450%Z; change (Z.of_nat 449) with 449%Z;
    lra.
Qed.

(** C5 (counterexample).  On the default scenario the No-Fix cost of
    sample 450, the first one with [t >= 27], exceeds the No-Fix cost of
    sample 449 by 1_000_000 + 50_000/499, not by exactly 1_000_000: between
    the two samples the curve also gains one sample of baseline drift. *)
Lemma C5_rise_is_not_the_step :
  exists (c : Curves) (before first : CurvePoint),
    fst (generateDashboardCurves defaultParams []) = Returns c /\
    nth_error (cost c) 449 = Some before /\
    nth_error (cost c) 450 = Some first /\
    noFix first - noFix before = 1000000 + 50000 / 499 /\
    noFix first - noFix before <> 1000000.
Proof.
  rewrite generateDashboardCurves_run. cbn [fst].
  destruct (@costCurve_last defaultParams) as (last & _ & ->);
    [simpl; lia|].
  destruct (nth_error (costCurveOf defaultParams) 449) as [pre|] eqn:E1;
    [|apply nth_error_None in E1; unfold costCurveOf in E1;
      rewrite costCurve_length in E1; simpl in E1; lia].
  destruct (nth_error (costCurveOf defaultParams) 450) as [post|] eqn:E2;
    [|apply nth_error_None in E2; unfold costCurveOf in E2;
      rewrite costCurve_length in E2; simpl in E2; lia].
  exists (curvesOf defaultParams (valuesOf last)), pre, post.
  cbn [cost curvesOf]. split; [reflexivity|].
  split; [exact E1|]. split; [exact E2|].
  pose proof (noFix_rise_at_step E1 E2) as H.
  split; [exact H | lra].
Qed.

(** C5 (as amended).  With a lifespan of 30 years, a replacement cost of
    1_000_000 and 500 samples, sample 450 is the first one whose absolute
    time reaches 27 years (0.9 times the lifespan).  Its No-Fix cost is its
    linear baseline plus exactly 1_000_000, and every earlier sample, the
    immediately preceding sample 449 among them, has its linear baseline
    alone as No-Fix cost.  From sample 449 to sample 450 the No-Fix cost
    rises by 1_000_000 + 50_000/499: the step and one sample of baseline
    drift. *)
Theorem C5_no_fix_step :
  forall (p : DashboardParams) (s : store),
    lifespanYears p = 30 -> replacementCost p = 1000000 ->
    points p = 500%Z -> cycleLengthYears p <> 0 ->
    exists (c : Curves) (before first : CurvePoint),
      fst (generateDashboardCurves p s) = Returns c /\
      nth_error (cost c) 449 = Some before /\
      nth_error (cost c) 450 = Some first /\
      27 <= cp_t first /\
      noFix first = 0.05 * 1000000 * cp_t first / 30 + 1000000 /\
      cp_t before < 27 /\
      noFix before = 0.05 * 1000000 * cp_t before / 30 /\
      (forall j pt, (j < 450)%nat -> nth_error (cost c) j = Some pt ->
         cp_t pt < 27 /\ noFix pt = 0.05 * 1000000 * cp_t pt / 30) /\
      noFix first - noFix before = 1000000 + 50000 / 499.
Proof.
  intros p s Hl Hr Hp _. rewrite generateDashboardCurves_run. cbn [fst].
  destruct (@costCurve_last p) as (last & _ & ->); [lia|].
  set (f := costSample (lifespanYears p) (replacementCost p)
              (cycleLengthYears p) (points p)
              (costFailTimes (lifespanYears p))
              (costFailCosts (replacementCost p))
              (interventionTimes (lifespanYears p))).
  assert (Hn : forall i, (i < 500)%nat -> nth_error (costCurveOf p) i
                                         = Some (f i)).
  { intros i Hi. apply costCurve_nth_error. rewrite Hp. simpl. lia. }
  assert (Ht : forall i, cp_t (f i) = INR i / 499 * 30).
  { intros i. unfold f, costSample. cbn [cp_t]. rewrite Hp, Hl.
    replace (500 - 1) with 499 by lra. reflexivity. }
  assert (Hbefore : forall i, (i < 450)%nat ->
            cp_t (f i) < 27 /\ noFix (f i) = 0.05 * 1000000 * cp_t (f i) / 30).
  { intros i Hi.
    assert (Hlt : cp_t (f i) < 27).
    { rewrite Ht. assert (INR i <= 449).
      { replace 449 with (INR 449) by (rewrite INR_literal; reflexivity).
        apply le_INR. lia. }
      lra. }
    split; [exact Hlt|].
    unfold f.
    rewrite costSample_noFix_before;
      [rewrite Hl, Hr; reflexivity | fold f; rewrite Hl; lra]. }
  exists (curvesOf p (valuesOf last)), (f 449%nat), (f 450%nat).
  cbn [cost curvesOf].
  split; [reflexivity|].
  split; [apply Hn; lia|]. split; [apply Hn; lia|].
  assert (H450 : 27 <= cp_t (f 450%nat)).
  { rewrite Ht, INR_literal. change (Z.of_nat 450) with 450%Z. lra. }
  split; [exact H450|].
  assert (Hfirst : noFix (f 450%nat)
                   = 0.05 * 1000000 * cp_t (f 450%nat) / 30 + 1000000).
  { unfold f.
    rewrite costSample_noFix_after;
      [rewrite Hl, Hr; reflexivity | fold f; rewrite Hl; lra]. }
  split; [exact Hfirst|].
  split; [apply Hbefore; lia|]. split; [apply Hbefore; lia|].
  split.
  { intros j pt Hj Hpt. rewrite Hn in Hpt by lia. injection Hpt as <-.
    now apply Hbefore. }
  rewrite Hfirst, (proj2 (Hbefore 449%nat ltac:(lia))), !Ht, !INR_literal.
  change (Z.of_nat 450) with 450%Z. change (Z.of_nat 449) with 449%Z.
  lra.
Qed.

Lemma C5_no_fix_step_witness :
  exists (c : Curves) (before first : CurvePoint),
    fst (generateDashboardCurves defaultParams []) = Returns c /\
    nth_error (cost c) 449 = Some before /\
    nth_error (cost c) 450 = Some first /\
    27 <= cp_t first /\
    noFix first = 0.05 * 1000000 * cp_t first / 30 + 1000000 /\
    cp_t before < 27 /\
    noFix before = 0.05 * 1000000 * cp_t before / 30 /\
    (forall j pt, (j < 450)%nat -> nth_error (cost c) j = Some pt ->
       cp_t pt < 27 /\ noFix pt = 0.05 * 1000000 * cp_t pt / 30) /\
    noFix first - noFix before = 1000000 + 50000 / 499.
Proof.
  apply (@C5_no_fix_step defaultParams []).
  - reflexivity.
  - reflexivity.
  - reflexivity.
  - simpl. lra.
Defined.

(** ** Probability-of-failure model *)

Section Likelihood.

Lemma logisticCurve_unit (x alpha midpoint : R) :
  0 < logisticCurve x alpha midpoint < 1.
Proof.
  unfold logisticCurve.
  pose proof (exp_pos (- alpha * (x - midpoint))) as He.
  set (e := exp _) in *.
  assert (Hd : 0 < 1 + e) by lra.
  pose proof (Rinv_0_lt_compat _ Hd) as Hi.
  unfold Rdiv. rewrite Rmult_1_l. split; [exact Hi|].
  rewrite <- Rinv_1. apply Rinv_lt_contravar; lra.
Qed.

Lemma calculateLof_bounds (ageNormalized lofAlpha floor : R) :
  0 <= floor < 1 ->
  floor <= calculateLof ageNormalized lofAlpha floor < 1.
Proof.
  intros Hf. unfold calculateLof.
  pose proof (logisticCurve_unit ageNormalized lofAlpha 0.7) as Hl.
  set (f := logisticCurve _ _ _) in *. cbv zeta. nra.
Qed.

End Likelihood.

(** The failing inputs on binary64 numbers. *)
Module OnDoubles.
Import PrimFloat.
#[local] Set Warnings "-inexact-float".
Local Open Scope float_scope.

(** C6 (counterexample).  At the normalized age 1, the steepness 200 and
    the floor 0.05, all inside the stated domain, [calculateLof] returns
    exactly 1 on doubles: [1 + Math.exp(-60.00000000000001)] rounds to 1,
    and so does [0.05 + 0.95].  With [riskAlpha = 200] the No-Fix risk of
    the last of 500 samples divided by the consequence is 1 as well. *)
Lemma C6_lof_reaches_one :
  (0 <=? 1) = true /\ (1 <=? 1) = true /\ (0 <? 200) = true /\
  (0 <=? 0.05) = true /\ (0.05 <? 1) = true /\
  Double.calculateLof 1 200 0.05 = 1 /\
  (Double.calculateLof 1 200 0.05 <? 1) = false /\
  Double.riskNoFix 200 0.05 1000000 500 499 / 1000000 = 1 /\
  (Double.riskNoFix 200 0.05 1000000 500 499 / 1000000 <? 1) = false.
Proof. vm_compute. repeat split. Qed.

(** C7 (counterexample).  With the floor 0.06, the steepness 10, the
    threshold 0.1 and the consequence 50_000 ([floor * 1.5 < threshold]),
    the first sample of 500 grows the likelihood to 0.09 + 0.01, which is
    0.09999999999999999 on doubles: below the threshold, so there is no
    reset, and the recorded Fix-on-Risk risk is 5000, equal to
    [threshold * consequence] and not strictly below it. *)
Lemma C7_risk_reaches_threshold_dollars :
  (0.06 * 1.5 <? 0.1) = true /\ (0 <? 50000) = true /\
  let step := Double.riskFixOnRisk 10 0.06 50000 0.1 500 (0.06 * 1.5) 0 in
  snd step = 0.099999999999999992 /\ (snd step <? 0.1) = true /\
  fst step = 5000 /\ 0.1 * 50000 = 5000 /\
  (fst step <? 0.1 * 50000) = false.
Proof. vm_compute. repeat split. Qed.

End OnDoubles.

(** C6 (as amended).  For every normalized age in [0,1], every positive
    steepness and every floor in [0,1), [calculateLof] returns a value that
    is at least the floor and at most 1.  Consequently, for a parameter
    record with [points >= 2], a floor [minLof] in [0,1) and a positive
    replacement cost (lifespan and cycle length not zero),
    [generateDashboardCurves] returns a record in which the No-Fix risk
    divided by the consequence of failure lies between [minLof] and 1, both
    included, at every sample. *)
Theorem C6_lof_bounds :
  forall (ageNormalized steepness floor : R) (p : DashboardParams) (s : store),
    0 <= ageNormalized <= 1 -> 0 < steepness -> 0 <= floor < 1 ->
    (2 <= points p)%Z -> lifespanYears p <> 0 -> cycleLengthYears p <> 0 ->
    0 <= minLof p < 1 -> 0 < replacementCost p ->
    floor <= calculateLof ageNormalized steepness floor <= 1 /\
    exists c : Curves,
      fst (generateDashboardCurves p s) = Returns c /\
      Forall (fun pt => minLof p <= noFix pt / replacementCost p <= 1)
        (risk c).
Proof.
  intros age steep floor p s _ _ Hfloor Hp _ _ Hmin Hcof.
  split.
  { pose proof (calculateLof_bounds age steep Hfloor). lra. }
  rewrite generateDashboardCurves_run. cbn [fst].
  destruct (@costCurve_last p) as (last & _ & ->); [lia|].
  eexists. split; [reflexivity|]. cbn [risk curvesOf]. unfold riskCurveOf.
  eapply Forall2_Forall_r; [apply riskCurve_grid|].
  intros i pt _ (_ & _ & ->). cbv beta.
  replace (calculateLof (INR i / (IZR (points p) - 1)) (riskAlpha p) (minLof p)
           * replacementCost p / replacementCost p)
    with (calculateLof (INR i / (IZR (points p) - 1)) (riskAlpha p) (minLof p))
    by (field; lra).
  pose proof (calculateLof_bounds (INR i / (IZR (points p) - 1))
                (riskAlpha p) Hmin).
  lra.
Qed.

Lemma C6_lof_bounds_witness :
  0.05 <= calculateLof 0.5 6 0.05 <= 1 /\
  exists c : Curves,
    fst (generateDashboardCurves defaultParams []) = Returns c /\
    Forall (fun pt => minLof defaultParams
                      <= noFix pt / replacementCost defaultParams <= 1)
      (risk c).
Proof.
  apply (@C6_lof_bounds 0.5 6 0.05 defaultParams []).
  - lra.
  - lra.
  - lra.
  - simpl. lia.
  - simpl. lra.
  - simpl. lra.
  - simpl. lra.
  - simpl. lra.
Defined.

(** ** The Fix-on-Risk sawtooth *)

Section Sawtooth.

Variables (lifespan riskAlpha minLof cof cycleLength threshold : R).
Variables (points : Z) (failTimes : list R).

Let sample :=
  riskSample lifespan riskAlpha minLof cof cycleLength threshold points
    failTimes.

(** The recorded value is the state after the comparison and the reset. *)
Lemma riskSample_fixOnRisk (st : riskState) (i : nat) :
  currentLof (snd (sample st i))
  = sawtoothNext riskAlpha minLof threshold (INR i / (IZR points - 1))
      (currentLof st) /\
  fixOnRisk (fst (sample st i)) = currentLof (snd (sample st i)) * cof.
Proof.
  unfold sample, riskSample.
  destruct (passFailures _ _ _ _ _ _ _) as [[last idx] lof].
  cbn. split; reflexivity.
Qed.

Lemma riskSample_fixInPlan (st : riskState) (i : nat) :
  fixInPlan (fst (sample st i))
  = planLof minLof cycleLength (INR i / (IZR points - 1))
      (INR i / (IZR points - 1) * lifespan) * cof.
Proof.
  unfold sample, riskSample.
  destruct (passFailures _ _ _ _ _ _ _) as [[last idx] lof].
  reflexivity.
Qed.

Lemma sawtoothNext_below (x current : R) :
  minLof * 1.5 < threshold ->
  sawtoothNext riskAlpha minLof threshold x current < threshold.
Proof.
  intros H. unfold sawtoothNext. cbv zeta.
  destruct (Rge_dec _ _) as [_|C]; lra.
Qed.

End Sawtooth.

(** C7 (as amended).  In the sample loop of [generateRiskCurves] the
    Fix-on-Risk likelihood is increased, then compared with the threshold
    and reset, and only then recorded: the recorded Fix-on-Risk risk of
    every sample is the carried likelihood after the reset times the
    consequence, and that likelihood is either the reset level
    [minLof * 1.5] or a value strictly below the threshold.  So for a
    parameter record with [points >= 2], a positive replacement cost and
    [minLof * 1.5 < threshold] (lifespan and cycle length not zero),
    [generateDashboardCurves] returns a record in which every Fix-on-Risk
    risk value is at most [threshold * replacementCost]. *)
Theorem C7_fix_on_risk_below_threshold :
  forall (p : DashboardParams) (s : store),
    (2 <= points p)%Z -> lifespanYears p <> 0 -> cycleLengthYears p <> 0 ->
    0 < replacementCost p -> minLof p * 1.5 < threshold p ->
    (forall failTimes st i,
       let step :=
         riskSample (lifespanYears p) (riskAlpha p) (minLof p)
           (replacementCost p) (cycleLengthYears p) (threshold p) (points p)
           failTimes st i in
       currentLof (snd step)
       = sawtoothNext (riskAlpha p) (minLof p) (threshold p)
           (INR i / (IZR (points p) - 1)) (currentLof st) /\
       fixOnRisk (fst step) = currentLof (snd step) * replacementCost p /\
       (currentLof (snd step) = minLof p * 1.5 \/
        currentLof (snd step) < threshold p)) /\
    exists c : Curves,
      fst (generateDashboardCurves p s) = Returns c /\
      Forall (fun pt => fixOnRisk pt <= threshold p * replacementCost p)
        (risk c).
Proof.
  intros p s Hp _ _ Hcof Hth.
  split.
  { intros failTimes st i. cbv zeta.
    destruct (riskSample_fixOnRisk (lifespanYears p) (riskAlpha p) (minLof p)
                (replacementCost p) (cycleLengthYears p) (threshold p)
                (points p) failTimes st i) as [Hnext Hrisk].
    split; [exact Hnext|]. split; [exact Hrisk|].
    rewrite Hnext. unfold sawtoothNext. cbv zeta.
    destruct (Rge_dec _ _) as [_|C]; [now left | right; lra]. }
  rewrite generateDashboardCurves_run. cbn [fst].
  destruct (@costCurve_last p) as (last & _ & ->); [lia|].
  eexists. split; [reflexivity|]. cbn [risk curvesOf].
  unfold riskCurveOf, riskCurve.
  apply Forall2_Forall_r
    with (P := fun (_ : nat) pt =>
                 fixOnRisk pt <= threshold p * replacementCost p)
         (xs := upto (points p));
    [|intros a b _ H; exact H].
  apply riskRun_invariant with (Inv := fun _ => True); [|exact I].
  intros st i _ _. split; [|exact I].
  destruct (riskSample_fixOnRisk (lifespanYears p) (riskAlpha p) (minLof p)
              (replacementCost p) (cycleLengthYears p) (threshold p)
              (points p) (sort (riskFailTimes (lifespanYears p))) st i)
    as [Hnext ->].
  rewrite Hnext. apply Rmult_le_compat_r; [lra|].
  left. now apply sawtoothNext_below.
Qed.

Lemma C7_fix_on_risk_below_threshold_witness :
  (forall failTimes st i,
     let step :=
       riskSample (lifespanYears defaultParams) (riskAlpha defaultParams)
         (minLof defaultParams) (replacementCost defaultParams)
         (cycleLengthYears defaultParams) (threshold defaultParams)
         (points defaultParams) failTimes st i in
     currentLof (snd step)
     = sawtoothNext (riskAlpha defaultParams) (minLof defaultParams)
         (threshold defaultParams)
         (INR i / (IZR (points defaultParams) - 1)) (currentLof st) /\
     fixOnRisk (fst step)
     = currentLof (snd step) * replacementCost defaultParams /\
     (currentLof (snd step) = minLof defaultParams * 1.5 \/
      currentLof (snd step) < threshold defaultParams)) /\
  exists c : Curves,
    fst (generateDashboardCurves defaultParams []) = Returns c /\
    Forall (fun pt => fixOnRisk pt
                      <= threshold defaultParams * replacementCost defaultParams)
      (risk c).
Proof.
  apply (@C7_fix_on_risk_below_threshold defaultParams []).
  - simpl. lia.
  - simpl. lra.
  - simpl. lra.
  - simpl. lra.
  - simpl. lra.
Defined.

(** ** Signs of the curve values *)

Section NonNegative.

Lemma fold_left_nonneg {A : Type} (f : R -> A -> R) (xs : list A) :
  (forall acc a, In a xs -> 0 <= acc -> 0 <= f acc a) ->
  forall acc, 0 <= acc -> 0 <= fold_left f xs acc.
Proof.
  induction xs as [|a xs IH]; intros Hf acc Hacc; cbn [fold_left].
  - exact Hacc.
  - apply IH.
    + intros acc' b Hb. apply Hf. now right.
    + apply Hf; [now left | exact Hacc].
Qed.

Lemma at_nonneg (xs : list R) (j : nat) :
  Forall (fun v => 0 <= v) xs -> 0 <= at_ xs j.
Proof.
  intros H. unfold at_. revert j.
  induction H as [|v xs Hv H IH]; intros [|j]; cbn [nth];
    first [lra | exact Hv | apply IH].
Qed.

Lemma costCostsFrom_nonneg (replacementCost : R) (counters : list nat) :
  0 < replacementCost ->
  forall seed,
    Forall (fun v => 0 <= v) (costCostsFrom replacementCost seed counters).
Proof.
  intros Hrc. induction counters as [|i counters IH]; intros seed;
    cbn [costCostsFrom]; constructor; [|apply IH].
  unfold repairCostAt.
  pose proof (fraction_unit (seed + 2 * gamma)) as Hv. nra.
Qed.

Variables (lifespan replacementCost cycleLength : R) (points : Z).
Hypothesis Hlifespan : 0 < lifespan.
Hypothesis Hcost : 0 < replacementCost.
Hypothesis Hpoints : (2 <= points)%Z.

Lemma grid_unit (i : nat) :
  (i < Z.to_nat points)%nat -> 0 <= INR i / (IZR points - 1) <= 1.
Proof.
  intros Hi.
  assert (Hd : 0 < IZR points - 1) by (apply IZR_le in Hpoints; lra).
  assert (Hle : INR i <= IZR points - 1).
  { rewrite INR_IZR_INZ, <- minus_IZR. apply IZR_le. lia. }
  pose proof (pos_INR i) as H0.
  pose proof (Rinv_0_lt_compat _ Hd) as Hinv.
  unfold Rdiv. split.
  - apply Rmult_le_pos; lra.
  - apply Rmult_le_reg_r with (IZR points - 1); [exact Hd|].
    rewrite Rmult_assoc, Rinv_l by lra. lra.
Qed.

(** The linear baseline [rate * replacementCost * t / lifespan]. *)
Lemma baseline_nonneg (rate x : R) :
  0 <= rate -> 0 <= x ->
  0 <= rate * replacementCost * (x * lifespan) / lifespan.
Proof.
  intros Hr Hx.
  replace (rate * replacementCost * (x * lifespan) / lifespan)
    with (rate * replacementCost * x) by (field; lra).
  apply Rmult_le_pos; [|exact Hx]. apply Rmult_le_pos; lra.
Qed.

Lemma costSample_nonneg (failTimes failCosts interventions : list R)
    (i : nat) :
  Forall (fun v => 0 <= v) failCosts ->
  (i < Z.to_nat points)%nat ->
  let pt := costSample lifespan replacementCost cycleLength points
              failTimes failCosts interventions i in
  0 <= noFix pt /\ 0 <= fixInPlan pt /\ 0 <= fixOnFail pt /\ 0 <= fixOnRisk pt.
Proof.
  intros Hfc Hi. destruct (grid_unit Hi) as [Hx _].
  unfold costSample. cbn [noFix fixInPlan fixOnFail fixOnRisk].
  set (x := INR i / (IZR points - 1)) in *.
  repeat split.
  - apply Rplus_le_le_0_compat; [apply baseline_nonneg; lra|].
    destruct (Rge_dec _ _); lra.
  - apply Rplus_le_le_0_compat; [apply baseline_nonneg; lra|].
    apply fold_left_nonneg; [|lra].
    intros acc c _ Hacc. destruct (Rge_dec _ _); lra.
  - apply Rplus_le_le_0_compat; [apply baseline_nonneg; lra|].
    apply fold_left_nonneg; [|lra].
    intros acc j _ Hacc. pose proof (at_nonneg j Hfc).
    destruct (Rge_dec _ _); lra.
  - apply Rplus_le_le_0_compat; [apply baseline_nonneg; lra|].
    apply fold_left_nonneg; [|lra].
    intros acc tInt _ Hacc. destruct (Rge_dec _ _); lra.
Qed.

Variables (riskAlpha minLof cof threshold : R).
Hypothesis Halpha : 0 < riskAlpha.
Hypothesis Hfloor : 0 <= minLof < 1.
Hypothesis Hcof : 0 < cof.

(** The [while] loop leaves [lofFixOnFail] at its initial value or at twice
    the baseline. *)
Lemma passFailures_lof (fuel : nat) (failTimes : list R) (t baselineLof : R) :
  forall last idx lof,
    snd (passFailures fuel failTimes t baselineLof last idx lof) = lof \/
    snd (passFailures fuel failTimes t baselineLof last idx lof)
    = baselineLof * 2.
Proof.
  induction fuel as [|fuel IH]; intros last idx lof; cbn [passFailures].
  - now left.
  - destruct (nth_error failTimes idx) as [failTime|]; [|now left].
    destruct (Rgt_dec t failTime); [|now left].
    right. destruct (IH failTime (S idx) (baselineLof * 2)) as [E|E];
      exact E.
Qed.

Lemma planLof_nonneg (x t : R) :
  0 <= x <= 1 -> minLof <= 0.9 -> 0 <= planLof minLof cycleLength x t.
Proof.
  intros Hx Hm. unfold planLof. cbv zeta.
  pose proof (COS_bound (2 * PI * (remainder t cycleLength / cycleLength)))
    as [Hc1 Hc2].
  set (c := cos _) in *.
  set (w := (1 - c) / 2).
  assert (Hw : 0 <= w <= 1) by (unfold w; lra).
  replace (minLof + (0.3 - minLof) * (1 + 0.5 * x) - minLof)
    with ((0.3 - minLof) * (1 + 0.5 * x)) by ring.
  destruct (Rle_dec minLof 0.3) as [Hlow|Hhigh].
  - assert (0 <= (0.3 - minLof) * (1 + 0.5 * x) * w)
      by (apply Rmult_le_pos; [apply Rmult_le_pos|]; lra).
    lra.
  - assert (Hk : (1 + 0.5 * x) * w <= 1.5) by nra.
    assert (H0 : 0 <= (1 + 0.5 * x) * w) by (apply Rmult_le_pos; lra).
    replace ((0.3 - minLof) * (1 + 0.5 * x) * w)
      with ((0.3 - minLof) * ((1 + 0.5 * x) * w)) by ring.
    set (k := (1 + 0.5 * x) * w) in *. nra.
Qed.

Lemma riskSample_nonneg (failTimes : list R) (st : riskState) (i : nat) :
  (i < Z.to_nat points)%nat -> 0 <= currentLof st ->
  let step := riskSample lifespan riskAlpha minLof cof cycleLength threshold
                points failTimes st i in
  (0 <= noFix (fst step) /\ 0 <= fixOnFail (fst step) /\
   0 <= fixOnRisk (fst step) /\
   (minLof <= 0.9 -> 0 <= fixInPlan (fst step))) /\
  0 <= currentLof (snd step).
Proof.
  intros Hi Hcur. cbv zeta.
  destruct (grid_unit Hi) as [Hx0 Hx1].
  pose proof (riskSample_fixOnRisk lifespan riskAlpha minLof cof cycleLength
                threshold points failTimes st i) as [Hnext Hrisk].
  pose proof (riskSample_fixInPlan lifespan riskAlpha minLof cof cycleLength
                threshold points failTimes st i) as Hplan.
  pose proof (riskSample_grid lifespan points riskAlpha minLof cof cycleLength
                threshold failTimes st i) as (_ & _ & Hno).
  assert (Hstate : 0 <= currentLof
                          (snd (riskSample lifespan riskAlpha minLof cof
                                  cycleLength threshold points failTimes
                                  st i))).
  { rewrite Hnext. unfold sawtoothNext. cbv zeta.
    set (x := INR i / (IZR points - 1)) in *.
    assert (0 <= 0.001 * riskAlpha * (1 + 2 * x))
      by (apply Rmult_le_pos; [apply Rmult_le_pos|]; lra).
    destruct (Rge_dec _ _); lra. }
  split; [|exact Hstate].
  rewrite Hrisk, Hplan, Hno. repeat split.
  - pose proof (calculateLof_bounds (INR i / (IZR points - 1)) riskAlpha Hfloor).
    apply Rmult_le_pos; lra.
  - unfold riskSample.
    pose proof (passFailures_lof (length failTimes) failTimes
                  (INR i / (IZR points - 1) * lifespan) (minLof * 2)
                  (lastFailureTime st) (failureIndex st) (minLof * 2)) as Hpass.
    destruct (passFailures _ _ _ _ _ _ _) as [[last idx] lof].
    cbn [snd] in Hpass. cbn [fst fixOnFail].
    apply Rmult_le_pos; [|lra].
    destruct (Rlt_dec _ _) as [_|_].
    + pose proof (logisticCurve_unit
                    ((INR i / (IZR points - 1) * lifespan - last)
                     / orOne (match nth_error failTimes idx with
                              | Some failTime => failTime
                              | None => lifespan
                              end - last))
                    (2 * riskAlpha) 0.6) as HL.
      set (L := logisticCurve _ _ _) in *.
      apply Rmin_glb; [nra | lra].
    + destruct (Req_dec_T _ _); [lra|].
      destruct Hpass as [-> | ->]; lra.
  - apply Rmult_le_pos; lra.
  - intros Hm. apply Rmult_le_pos; [|lra].
    apply planLof_nonneg; [split; assumption | exact Hm].
Qed.

Lemma costCurve_nonneg :
  Forall (fun pt => 0 <= noFix pt /\ 0 <= fixInPlan pt /\
                    0 <= fixOnFail pt /\ 0 <= fixOnRisk pt)
    (costCurve lifespan replacementCost cycleLength points).
Proof.
  unfold costCurve. apply Forall_map. apply Forall_forall.
  intros i Hi. apply upto_In in Hi.
  apply costSample_nonneg; [|exact Hi].
  apply costCostsFrom_nonneg. exact Hcost.
Qed.

Lemma riskCurve_nonneg :
  Forall (fun pt => 0 <= noFix pt /\ 0 <= fixOnFail pt /\
                    0 <= fixOnRisk pt /\
                    (minLof <= 0.9 -> 0 <= fixInPlan pt))
    (riskCurve lifespan riskAlpha minLof cof cycleLength threshold points).
Proof.
  unfold riskCurve.
  apply Forall2_Forall_r
    with (P := fun (_ : nat) pt =>
                 0 <= noFix pt /\ 0 <= fixOnFail pt /\ 0 <= fixOnRisk pt /\
                 (minLof <= 0.9 -> 0 <= fixInPlan pt))
         (xs := upto points);
    [|intros a b _ H; exact H].
  apply riskRun_invariant with (Inv := fun st => 0 <= currentLof st).
  - intros st i Hi Hst. apply upto_In in Hi.
    now apply riskSample_nonneg.
  - cbn. lra.
Qed.

End NonNegative.

Section PlanCounterexample.

Lemma riskCurve_plan lifespan riskAlpha minLof cof cycleLength threshold
    points :
  Forall2
    (fun i pt =>
       fixInPlan pt
       = planLof minLof cycleLength (INR i / (IZR points - 1))
           (INR i / (IZR points - 1) * lifespan) * cof)
    (upto points)
    (riskCurve lifespan riskAlpha minLof cof cycleLength threshold points).
Proof.
  unfold riskCurve.
  apply riskRun_invariant with (Inv := fun _ => True); [|exact I].
  intros st i _ _. split; [apply riskSample_fixInPlan | exact I].
Qed.

Lemma remainder_30_20 : remainder 30 20 = 10.
Proof.
  unfold remainder, truncate.
  destruct (Rle_dec 0 (30 / 20)) as [_|C]; [|lra].
  rewrite (@Zfloor_eq 1 (30 / 20)) by lra. lra.
Qed.

(** At the end of a lifespan of 30 years with a cycle of 20 years the wave
    is at its crest, and with a floor of 0.95 the likelihood is negative. *)
Lemma planLof_high_floor : planLof 0.95 20 1 30 = -0.025.
Proof.
  unfold planLof. cbv zeta. rewrite remainder_30_20.
  replace (2 * PI * (10 / 20)) with PI by lra.
  rewrite cos_PI. lra.
Qed.

End PlanCounterexample.

(** C3 (counterexample).  The record with lifespan 30, replacement cost
    1_000_000, steepness 6, floor 0.95, cycle 20, threshold 0.4 and 2
    samples lies in the stated domain, and the Fix-in-Plan risk of its last
    sample is -25_000. *)
Lemma C3_fix_in_plan_negative :
  (0 < lifespanYears highFloorParams /\ 0 < replacementCost highFloorParams /\
   0 < riskAlpha highFloorParams /\ 0 <= minLof highFloorParams < 1 /\
   0 < cycleLengthYears highFloorParams /\
   0 <= threshold highFloorParams <= 1 /\ (2 <= points highFloorParams)%Z) /\
  exists (c : Curves) (pt : CurvePoint),
    fst (generateDashboardCurves highFloorParams []) = Returns c /\
    nth_error (risk c) 1 = Some pt /\
    fixInPlan pt = -25000 /\ fixInPlan pt < 0.
Proof.
  split; [cbn; repeat split; try lra; lia|].
  rewrite generateDashboardCurves_run. cbn [fst].
  destruct (@costCurve_last highFloorParams) as (last & _ & ->);
    [simpl; lia|].
  destruct (nth_error (riskCurveOf highFloorParams) 1) as [pt|] eqn:E.
  - exists (curvesOf highFloorParams (valuesOf last)), pt.
    split; [reflexivity|]. split; [exact E|].
    pose proof (Forall2_nth_error
                  (riskCurve_plan 30 6 0.95 1000000 20 0.4 2) 1
                  (a := 1%nat) eq_refl E) as H.
    cbv beta in H.
    replace (INR 1 / (IZR 2 - 1)) with 1 in H by (simpl INR; lra).
    replace (1 * 30) with 30 in H by lra.
    rewrite planLof_high_floor in H. rewrite H. split; lra.
  - apply nth_error_None in E. unfold riskCurveOf in E.
    rewrite riskCurve_length in E. simpl in E. lia.
Qed.

(** C3 (as amended).  For every parameter record in the stated domain,
    [generateDashboardCurves] returns a record in which every cost value of
    the four strategies is non-negative and every No-Fix, Fix-on-Fail and
    Fix-on-Risk risk value is non-negative; every Fix-in-Plan risk value is
    non-negative as well when the floor is at most 0.9. *)
Theorem C3_values_non_negative :
  forall (p : DashboardParams) (s : store),
    0 < lifespanYears p -> 0 < replacementCost p -> 0 < riskAlpha p ->
    0 <= minLof p < 1 -> 0 < cycleLengthYears p -> 0 <= threshold p <= 1 ->
    (2 <= points p)%Z ->
    exists c : Curves,
      fst (generateDashboardCurves p s) = Returns c /\
      Forall (fun pt => 0 <= noFix pt /\ 0 <= fixInPlan pt /\
                        0 <= fixOnFail pt /\ 0 <= fixOnRisk pt) (cost c) /\
      Forall (fun pt => 0 <= noFix pt /\ 0 <= fixOnFail pt /\
                        0 <= fixOnRisk pt) (risk c) /\
      (minLof p <= 0.9 -> Forall (fun pt => 0 <= fixInPlan pt) (risk c)).
Proof.
  intros p s Hl Hrc Ha Hm _ _ Hp.
  rewrite generateDashboardCurves_run. cbn [fst].
  destruct (@costCurve_last p) as (last & _ & ->); [lia|].
  eexists. split; [reflexivity|]. cbn [cost risk curvesOf].
  pose proof (@riskCurve_nonneg (lifespanYears p) (cycleLengthYears p)
                (points p) Hp (riskAlpha p) (minLof p) (replacementCost p)
                (threshold p) Ha Hm Hrc) as HR.
  split; [now apply costCurve_nonneg|]. split.
  - unfold riskCurveOf. eapply Forall_impl; [|exact HR].
    intros pt (H1 & H2 & H3 & _). repeat split; assumption.
  - intros H09. unfold riskCurveOf. eapply Forall_impl; [|exact HR].
    intros pt (_ & _ & _ & H4). now apply H4.
Qed.

Lemma C3_values_non_negative_witness :
  exists c : Curves,
    fst (generateDashboardCurves defaultParams []) = Returns c /\
    Forall (fun pt => 0 <= noFix pt /\ 0 <= fixInPlan pt /\
                      0 <= fixOnFail pt /\ 0 <= fixOnRisk pt) (cost c) /\
    Forall (fun pt => 0 <= noFix pt /\ 0 <= fixOnFail pt /\
                      0 <= fixOnRisk pt) (risk c) /\
    (minLof defaultParams <= 0.9 ->
     Forall (fun pt => 0 <= fixInPlan pt) (risk c)).
Proof.
  apply (@C3_values_non_negative defaultParams []).
  - simpl. lra.
  - simpl. lra.
  - simpl. lra.
  - simpl. lra.
  - simpl. lra.
  - simpl. lra.
  - simpl. lia.
Defined.

(** * Further properties *)

(** ** Sequence generator *)

Section GeneratorCells.

Lemma write_length (g : generator) (v : Z) (s : store) :
  length (write g v s) = length s.
Proof.
  revert g. induction s as [|c s IH]; intros [|g]; cbn; auto.
Qed.

Lemma nth_write_same (g : generator) (v : Z) (s : store) :
  (g < length s)%nat -> nth g (write g v s) 0%Z = v.
Proof.
  revert g. induction s as [|c s IH]; intros [|g] H; cbn in *;
    first [lia | reflexivity | apply IH; lia].
Qed.

Lemma nth_write_other (g h : generator) (v : Z) (s : store) :
  h <> g -> nth h (write g v s) 0%Z = nth h s 0%Z.
Proof.
  revert g h. induction s as [|c s IH]; intros [|g] [|h] H; cbn;
    first [reflexivity | congruence | apply IH; congruence].
Qed.

Lemma write_write_other (g h : generator) (v w : Z) (s : store) :
  h <> g -> write g v (write h w s) = write h w (write g v s).
Proof.
  revert g h. induction s as [|c s IH]; intros [|g] [|h] H; cbn;
    first [reflexivity | congruence | f_equal; apply IH; congruence].
Qed.

End GeneratorCells.

(** X1.  Whatever the store and the generator, [rng()] returns a fraction
    that is at least 0 and strictly below 1. *)
Theorem X1_call_in_unit_interval :
  forall (g : generator) (s : store), 0 <= fst (call g s) < 1.
Proof.
  intros g s. unfold call. cbn [fst]. apply (fraction_unit _).
Qed.

(** X2.  Generators do not interfere.  A call on a live generator [g]
    advances its own cell by [0x6d2b79f5] and leaves the number of cells and
    every other cell as they were; so calls on two different generators give
    the same two fractions and the same store in either order. *)
Theorem X2_generators_independent :
  forall (g h : generator) (s : store),
    (g < length s)%nat -> h <> g ->
    length (snd (call g s)) = length s /\
    nth g (snd (call g s)) 0%Z = (nth g s 0 + gamma)%Z /\
    nth h (snd (call g s)) 0%Z = nth h s 0%Z /\
    (u <- call g ;; v <- call h ;; ret (u, v)) s
    = (v <- call h ;; u <- call g ;; ret (u, v)) s.
Proof.
  intros g h s Hg Hhg. unfold call, bind, ret. cbn [fst snd].
  split; [apply write_length|].
  split; [now apply nth_write_same|].
  split; [now apply nth_write_other|].
  rewrite !nth_write_other by congruence.
  now rewrite write_write_other by congruence.
Qed.

Lemma X2_generators_independent_witness :
  length (snd (call 0%nat [42; 7]%Z)) = 2%nat /\
  nth 0 (snd (call 0%nat [42; 7]%Z)) 0%Z = (42 + gamma)%Z /\
  nth 1 (snd (call 0%nat [42; 7]%Z)) 0%Z = 7%Z /\
  (u <- call 0%nat ;; v <- call 1%nat ;; ret (u, v)) [42; 7]%Z
  = (v <- call 1%nat ;; u <- call 0%nat ;; ret (u, v)) [42; 7]%Z.
Proof.
  apply (@X2_generators_independent 0%nat 1%nat [42; 7]%Z).
  - simpl. lia.
  - lia.
Defined.

(** X3.  As long as the captured seed stays within 2^53 in absolute
    value, where the addition of the code is the integer addition, the
    first [n] values of a generator created by [mulberry32(seed)] depend on
    the seed alone: the value number [k] (from 0) is the mixed seed
    [seed + (k + 1) * 0x6d2b79f5] over 2^32, whatever cells the store
    already holds; the store gains exactly one cell, which ends at
    [seed + n * 0x6d2b79f5], and the earlier cells are untouched. *)
Theorem X3_fresh_generator_sequence :
  forall (seed : Z) (n : nat) (s : store),
    (- 2 ^ 53 <= seed)%Z -> (seed + Z.of_nat n * gamma <= 2 ^ 53)%Z ->
    (g <- mulberry32 seed ;; calls g n) s
    = (map (fun k => IZR (mix (seed + (Z.of_nat k + 1) * gamma)) / 4294967296)
         (seq 0 n),
       s ++ [(seed + Z.of_nat n * gamma)%Z]).
Proof.
  intros seed n s _ _. unfold bind. rewrite mulberry32_run.
  rewrite calls_run. reflexivity.
Qed.

Lemma X3_fresh_generator_sequence_witness :
  (g <- mulberry32 42 ;; calls g 10) []
  = (map (fun k => IZR (mix (42 + (Z.of_nat k + 1) * gamma)) / 4294967296)
       (seq 0 10),
     [] ++ [(42 + Z.of_nat 10 * gamma)%Z]).
Proof.
  apply (@X3_fresh_generator_sequence 42%Z 10%nat []).
  - vm_compute. discriminate.
  - vm_compute. discriminate.
Defined.

(** ** Probability-of-failure model *)

Section LogisticShape.

Lemma logisticCurve_increasing (alpha midpoint x1 x2 : R) :
  0 < alpha -> x1 < x2 ->
  logisticCurve x1 alpha midpoint < logisticCurve x2 alpha midpoint.
Proof.
  intros Ha Hx. unfold logisticCurve.
  assert (He : exp (- alpha * (x2 - midpoint))
               < exp (- alpha * (x1 - midpoint))).
  { apply exp_increasing. nra. }
  pose proof (exp_pos (- alpha * (x2 - midpoint))) as H2.
  pose proof (exp_pos (- alpha * (x1 - midpoint))) as H1.
  unfold Rdiv. rewrite !Rmult_1_l.
  apply Rinv_lt_contravar; [|lra].
  apply Rmult_lt_0_compat; lra.
Qed.

End LogisticShape.

(** X4.  [logisticCurve] is a sigmoid around its midpoint: its value lies
    between 0 and 1, it is exactly 1/2 at the midpoint, and the values at
    equal distances on both sides of the midpoint add up to 1. *)
Theorem X4_logistic_sigmoid :
  forall x alpha midpoint d : R,
    0 <= logisticCurve x alpha midpoint <= 1 /\
    logisticCurve midpoint alpha midpoint = 1 / 2 /\
    logisticCurve (midpoint + d) alpha midpoint
    + logisticCurve (midpoint - d) alpha midpoint = 1.
Proof.
  intros x alpha m d. split.
  { pose proof (logisticCurve_unit x alpha m). lra. }
  split.
  - unfold logisticCurve.
    replace (- alpha * (m - m)) with 0 by ring. rewrite exp_0. lra.
  - unfold logisticCurve.
    replace (- alpha * (m + d - m)) with (- (alpha * d)) by ring.
    replace (- alpha * (m - d - m)) with (alpha * d) by ring.
    rewrite exp_Ropp.
    pose proof (exp_pos (alpha * d)) as He.
    field. split; lra.
Qed.

Section LogisticOrder.

Lemma logisticCurve_monotone (alpha midpoint x1 x2 : R) :
  0 <= alpha -> x1 <= x2 ->
  logisticCurve x1 alpha midpoint <= logisticCurve x2 alpha midpoint.
Proof.
  intros [Ha|<-] [Hx|<-]; try lra.
  - left. now apply logisticCurve_increasing.
  - unfold logisticCurve.
    replace (- 0 * (x1 - midpoint)) with (- 0 * (x2 - midpoint)) by ring.
    lra.
Qed.

Lemma calculateLof_monotone (alpha floor x1 x2 : R) :
  0 <= alpha -> floor <= 1 -> x1 <= x2 ->
  calculateLof x1 alpha floor <= calculateLof x2 alpha floor.
Proof.
  intros Ha Hf Hx. unfold calculateLof. cbv zeta.
  pose proof (logisticCurve_monotone 0.7 Ha Hx). nra.
Qed.

End LogisticOrder.

(** X5.  For a steepness that is not negative, [logisticCurve] never
    decreases when its argument grows. *)
Theorem X5_logistic_never_decreases :
  forall alpha midpoint x1 x2 : R,
    0 <= alpha -> x1 <= x2 ->
    logisticCurve x1 alpha midpoint <= logisticCurve x2 alpha midpoint.
Proof. intros. now apply logisticCurve_monotone. Qed.

Lemma X5_logistic_never_decreases_witness :
  logisticCurve 0 6 0.5 <= logisticCurve 1 6 0.5.
Proof.
  apply (@X5_logistic_never_decreases 6 0.5 0 1).
  - lra.
  - lra.
Defined.

(** X6.  With a steepness that is not negative and a floor of at most 1,
    [calculateLof] never decreases when the normalized age grows; so for
    [points >= 2] and a positive consequence of failure (lifespan and cycle
    length not zero) the No-Fix risk of the record returned by
    [generateDashboardCurves] never decreases from one sample to a later
    one. *)
Theorem X6_no_fix_risk_never_decreases :
  forall (p : DashboardParams) (s : store) (x1 x2 : R),
    (2 <= points p)%Z -> lifespanYears p <> 0 -> cycleLengthYears p <> 0 ->
    0 <= riskAlpha p -> minLof p <= 1 -> 0 < replacementCost p -> x1 <= x2 ->
    calculateLof x1 (riskAlpha p) (minLof p)
    <= calculateLof x2 (riskAlpha p) (minLof p) /\
    exists c : Curves,
      fst (generateDashboardCurves p s) = Returns c /\
      nonDecreasing NoFix (risk c).
Proof.
  intros p s x1 x2 Hp _ _ Ha Hm Hc Hx.
  split; [now apply calculateLof_monotone|].
  rewrite generateDashboardCurves_run. cbn [fst].
  destruct (@costCurve_last p) as (last & _ & ->); [lia|].
  eexists. split; [reflexivity|]. cbn [risk curvesOf].
  intros i j pi pj Hij Hi Hj. cbn [valueOf].
  pose proof (riskCurve_grid (lifespanYears p) (points p) (riskAlpha p)
                (minLof p) (replacementCost p) (cycleLengthYears p)
                (threshold p)) as G.
  assert (Hjn : (j < Z.to_nat (points p))%nat).
  { unfold riskCurveOf in Hj.
    rewrite <- (riskCurve_length (lifespanYears p) (riskAlpha p) (minLof p)
                  (replacementCost p) (cycleLengthYears p) (threshold p)
                  (points p)).
    apply nth_error_Some. congruence. }
  destruct (Forall2_nth_error G i
              (upto_nth_error _ (Nat.le_lt_trans _ _ _ Hij Hjn)) Hi)
    as (_ & _ & ->).
  destruct (Forall2_nth_error G j (upto_nth_error _ Hjn) Hj) as (_ & _ & ->).
  apply Rmult_le_compat_r; [lra|].
  apply calculateLof_monotone; [exact Ha | exact Hm |].
  apply IZR_le in Hp. apply le_INR in Hij.
  apply Rmult_le_compat_r; [|exact Hij].
  left. apply Rinv_0_lt_compat. lra.
Qed.

Lemma X6_no_fix_risk_never_decreases_witness :
  calculateLof 0 6 0.05 <= calculateLof 1 6 0.05 /\
  exists c : Curves,
    fst (generateDashboardCurves defaultParams []) = Returns c /\
    nonDecreasing NoFix (risk c).
Proof.
  apply (@X6_no_fix_risk_never_decreases defaultParams [] 0 1).
  - simpl. lia.
  - simpl. lra.
  - simpl. lra.
  - simpl. lra.
  - simpl. lra.
  - simpl. lra.
  - lra.
Defined.

(** ** Cost curves *)

Section StepSums.

Context {A : Type}.
Variables (time amount : A -> R).

Lemma fold_stepSum (t : R) (events : list A) :
  forall acc,
    fold_left
      (fun acc a => if Rge_dec t (time a) then acc + amount a else acc)
      events acc
    = acc + stepSum t time amount events.
Proof.
  unfold stepSum, total.
  induction events as [|a events IH]; intros acc; cbn.
  - lra.
  - rewrite IH. destruct (Rge_dec t (time a)); lra.
Qed.

Lemma stepSum_before (t : R) (events : list A) :
  (forall a, In a events -> t < time a) -> stepSum t time amount events = 0.
Proof.
  unfold stepSum, total.
  induction events as [|a events IH]; intros H; cbn; [reflexivity|].
  rewrite IH by (intros b Hb; apply H; now right).
  pose proof (H a (or_introl eq_refl)).
  destruct (Rge_dec t (time a)); lra.
Qed.

Lemma stepSum_after (t : R) (events : list A) :
  (forall a, In a events -> time a <= t) ->
  stepSum t time amount events = total (map amount events).
Proof.
  unfold stepSum, total.
  induction events as [|a events IH]; intros H; cbn; [reflexivity|].
  rewrite IH by (intros b Hb; apply H; now right).
  pose proof (H a (or_introl eq_refl)).
  destruct (Rge_dec t (time a)); lra.
Qed.

Lemma stepSum_monotone (t1 t2 : R) (events : list A) :
  t1 <= t2 -> (forall a, In a events -> 0 <= amount a) ->
  stepSum t1 time amount events <= stepSum t2 time amount events.
Proof.
  intros Ht. unfold stepSum, total.
  induction events as [|a events IH]; intros H; cbn; [lra|].
  assert (IH' := IH (fun b Hb => H b (or_intror Hb))).
  pose proof (H a (or_introl eq_refl)).
  destruct (Rge_dec t1 (time a)), (Rge_dec t2 (time a)); lra.
Qed.

End StepSums.

Section CostSamples.

Variables (lifespan replacementCost cycleLength : R) (points : Z).
Variables (failTimes failCosts interventions : list R).

(** The four values of a cost sample: a linear baseline and the sum of the
    events passed. *)
Lemma costSample_values (i : nat) :
  let pt := costSample lifespan replacementCost cycleLength points
              failTimes failCosts interventions i in
  let t := INR i / (IZR points - 1) * lifespan in
  noFix pt
  = 0.05 * replacementCost * t / lifespan
    + (if Rge_dec t (0.9 * lifespan) then replacementCost else 0) /\
  fixInPlan pt
  = 0.02 * replacementCost * t / lifespan
    + stepSum t (fun c => INR c * cycleLength)
        (fun _ => 0.15 * replacementCost)
        (seq 1 (Z.to_nat (Zfloor (lifespan / cycleLength)))) /\
  fixOnFail pt
  = 0.01 * replacementCost * t / lifespan
    + stepSum t (at_ failTimes) (at_ failCosts) (seq 0 (length failTimes)) /\
  fixOnRisk pt
  = 0.02 * replacementCost * t / lifespan
    + stepSum t (fun tInt => tInt) (fun _ => 0.2 * replacementCost)
        interventions.
Proof.
  cbv zeta. unfold costSample. cbn [noFix fixInPlan fixOnFail fixOnRisk].
  split; [reflexivity|].
  split; [|split].
  - rewrite (fold_stepSum (fun c => INR c * cycleLength)
               (fun _ => 0.15 * replacementCost)). lra.
  - rewrite (fold_stepSum (at_ failTimes) (at_ failCosts)). lra.
  - rewrite (fold_stepSum (fun tInt : R => tInt)
               (fun _ => 0.2 * replacementCost)). lra.
Qed.

End CostSamples.

Section ScheduleBounds.

Lemma failureTimeAt_bounds (lifespan : R) (i : nat) (u : R) :
  0 <= lifespan ->
  0.3 * lifespan <= failureTimeAt lifespan i u <= lifespan.
Proof.
  intros Hl. unfold failureTimeAt.
  set (y := 0.3 + _ + _).
  assert (H : 0.3 <= Rmin 1 (Rmax 0.3 y) <= 1).
  { split; [|apply Rmin_l].
    apply Rmin_glb; [lra | apply Rmax_l]. }
  nra.
Qed.

Lemma costTimesFrom_bounds (lifespan : R) (counters : list nat) :
  0 <= lifespan ->
  forall seed,
    length (costTimesFrom lifespan seed counters) = length counters /\
    Forall (fun t => 0.3 * lifespan <= t <= lifespan)
      (costTimesFrom lifespan seed counters).
Proof.
  intros Hl. induction counters as [|i counters IH]; intros seed;
    cbn [costTimesFrom length].
  - split; [reflexivity | constructor].
  - destruct (IH (seed + 2 * gamma)%Z) as [Hlen Hall].
    split; [now rewrite Hlen|].
    constructor; [now apply failureTimeAt_bounds | exact Hall].
Qed.

Lemma riskTimesFrom_bounds (lifespan : R) (counters : list nat) :
  0 <= lifespan ->
  forall seed,
    length (riskTimesFrom lifespan seed counters) = length counters /\
    Forall (fun t => 0.3 * lifespan <= t <= lifespan)
      (riskTimesFrom lifespan seed counters).
Proof.
  intros Hl. induction counters as [|i counters IH]; intros seed;
    cbn [riskTimesFrom length].
  - split; [reflexivity | constructor].
  - destruct (IH (seed + gamma)%Z) as [Hlen Hall].
    split; [now rewrite Hlen|].
    constructor; [now apply failureTimeAt_bounds | exact Hall].
Qed.

Lemma costCostsFrom_bounds (replacementCost : R) (counters : list nat) :
  0 < replacementCost ->
  forall seed,
    length (costCostsFrom replacementCost seed counters) = length counters /\
    Forall (fun c => 0.3 * replacementCost <= c < 0.5 * replacementCost)
      (costCostsFrom replacementCost seed counters).
Proof.
  intros Hrc. induction counters as [|i counters IH]; intros seed;
    cbn [costCostsFrom length].
  - split; [reflexivity | constructor].
  - destruct (IH (seed + 2 * gamma)%Z) as [Hlen Hall].
    split; [now rewrite Hlen|].
    constructor; [|exact Hall].
    unfold repairCostAt.
    pose proof (fraction_unit (seed + 2 * gamma)) as Hv. nra.
Qed.

End ScheduleBounds.

(** X7.  For a lifespan that is not negative and a positive replacement
    cost, the failure schedule of [generateCostCurves] holds five failure
    times, each between 0.3 times the lifespan and the lifespan, and five
    repair costs, each at least 0.3 and strictly below 0.5 times the
    replacement cost; the schedule of [generateRiskCurves] holds five
    failure times within the same bounds. *)
Theorem X7_failure_schedule_bounds :
  forall (lifespan replacementCost : R) (s : store),
    0 <= lifespan -> 0 < replacementCost ->
    let costSchedule := fst (costFailureSchedule lifespan replacementCost s) in
    let riskTimes := fst (riskFailureSchedule lifespan s) in
    length (fst costSchedule) = 5%nat /\
    length (snd costSchedule) = 5%nat /\
    length riskTimes = 5%nat /\
    Forall (fun t => 0.3 * lifespan <= t <= lifespan) (fst costSchedule) /\
    Forall (fun c => 0.3 * replacementCost <= c < 0.5 * replacementCost)
      (snd costSchedule) /\
    Forall (fun t => 0.3 * lifespan <= t <= lifespan) riskTimes.
Proof.
  intros l rc s Hl Hrc. cbv zeta.
  rewrite costFailureSchedule_run, riskFailureSchedule_run. cbn [fst snd].
  unfold costFailTimes, costFailCosts, riskFailTimes.
  destruct (costTimesFrom_bounds (upto maxFailures) Hl 42) as [L1 B1].
  destruct (costCostsFrom_bounds (upto maxFailures) Hrc 42) as [L2 B2].
  destruct (riskTimesFrom_bounds (upto maxFailures) Hl 42) as [L3 B3].
  repeat split; assumption.
Qed.

Lemma X7_failure_schedule_bounds_witness :
  let costSchedule := fst (costFailureSchedule 30 1000000 []) in
  let riskTimes := fst (riskFailureSchedule 30 []) in
  length (fst costSchedule) = 5%nat /\
  length (snd costSchedule) = 5%nat /\
  length riskTimes = 5%nat /\
  Forall (fun t => 0.3 * 30 <= t <= 30) (fst costSchedule) /\
  Forall (fun c => 0.3 * 1000000 <= c < 0.5 * 1000000) (snd costSchedule) /\
  Forall (fun t => 0.3 * 30 <= t <= 30) riskTimes.
Proof.
  apply (@X7_failure_schedule_bounds 30 1000000 []).
  - lra.
  - lra.
Defined.

Section CostCurveShape.

Lemma interventionTimes_values (lifespan : R) :
  interventionTimes lifespan
  = [0.45 * lifespan; 0.6 * lifespan; 0.75 * lifespan; 0.9 * lifespan].
Proof.
  unfold interventionTimes, N_interventions. cbn [seq map]. simpl INR.
  rewrite !Rmin_left by lra.
  repeat (f_equal; [lra|]). f_equal. lra.
Qed.

Lemma Forall_at (P : R -> Prop) (xs : list R) (j : nat) :
  Forall P xs -> (j < length xs)%nat -> P (at_ xs j).
Proof.
  intros H Hj. unfold at_. rewrite Forall_forall in H.
  apply H. now apply nth_In.
Qed.

Lemma total_at (xs : list R) :
  total (map (at_ xs) (seq 0 (length xs))) = total xs.
Proof.
  f_equal. unfold at_.
  induction xs as [|a xs IH]; [reflexivity|].
  cbn [length seq map nth]. f_equal.
  rewrite <- seq_shift, map_map. exact IH.
Qed.

Lemma total_constant {A : Type} (v : R) (xs : list A) :
  total (map (fun _ => v) xs) = INR (length xs) * v.
Proof.
  unfold total. induction xs as [|a xs IH]; [cbn; lra|].
  cbn [map fold_right]. rewrite IH.
  change (length (a :: xs)) with (S (length xs)). rewrite S_INR. lra.
Qed.

Lemma total_bounds (lo hi : R) (xs : list R) :
  Forall (fun v => lo <= v < hi) xs -> xs <> [] ->
  INR (length xs) * lo <= total xs < INR (length xs) * hi.
Proof.
  unfold total. induction 1 as [|v xs Hv H IH]; intros Hne; [congruence|].
  change (length (v :: xs)) with (S (length xs)). rewrite S_INR.
  cbn [fold_right].
  destruct xs as [|w xs].
  - cbn. lra.
  - assert (IH' := IH ltac:(discriminate)). lra.
Qed.

(** The grid point of the last sample is 1. *)
Lemma last_grid_point (points : Z) :
  (2 <= points)%Z -> INR (Z.to_nat points - 1) / (IZR points - 1) = 1.
Proof.
  intros Hp. rewrite minus_INR by lia. rewrite INR_IZR_INZ, Z2Nat.id by lia.
  simpl INR. apply IZR_le in Hp. field. lra.
Qed.

(** The record returned for [points >= 2], with its last cost sample. *)
Lemma dashboardOutcome_last (p : DashboardParams) :
  (2 <= points p)%Z ->
  dashboardOutcome p
  = Returns
      (curvesOf p
         (valuesOf
            (costSample (lifespanYears p) (replacementCost p)
               (cycleLengthYears p) (points p)
               (costFailTimes (lifespanYears p))
               (costFailCosts (replacementCost p))
               (interventionTimes (lifespanYears p))
               (Z.to_nat (points p) - 1)))).
Proof.
  intros Hp.
  destruct (@costCurve_last p) as (last & Hlast & ->); [lia|].
  unfold costCurveOf in Hlast.
  rewrite costCurve_nth_error in Hlast by lia.
  now injection Hlast as <-.
Qed.

End CostCurveShape.

(** X8.  For [points >= 2], a positive lifespan and a positive cycle length
    the first sample of the cost curve is taken at time 0 and costs nothing
    under any of the four strategies. *)
Theorem X8_cost_starts_at_zero :
  forall (p : DashboardParams) (s : store),
    (2 <= points p)%Z -> 0 < lifespanYears p -> 0 < cycleLengthYears p ->
    exists (c : Curves) (first : CurvePoint),
      fst (generateDashboardCurves p s) = Returns c /\
      nth_error (cost c) 0 = Some first /\
      cp_t first = 0 /\
      forall k, valueOf k first = 0.
Proof.
  intros p s Hp Hl Hc. rewrite generateDashboardCurves_run. cbn [fst].
  rewrite dashboardOutcome_last by exact Hp.
  eexists. eexists. split; [reflexivity|]. cbn [cost curvesOf].
  split; [apply costCurve_nth_error; lia|].
  set (l := lifespanYears p) in *. set (cyc := cycleLengthYears p) in *.
  set (rc := replacementCost p).
  assert (Ht : INR 0 / (IZR (points p) - 1) * l = 0)
    by (simpl INR; unfold Rdiv; ring).
  split; [exact Ht|].
  pose proof (costSample_values l rc cyc (points p) (costFailTimes l)
                (costFailCosts rc) (interventionTimes l) 0) as V.
  cbv zeta in V. rewrite Ht in V.
  destruct V as (V1 & V2 & V3 & V4).
  assert (B : 0.01 * rc * 0 / l = 0 /\ 0.02 * rc * 0 / l = 0
              /\ 0.05 * rc * 0 / l = 0)
    by (repeat split; unfold Rdiv; ring).
  destruct B as (B1 & B2 & B5).
  intros k. destruct k; cbn [valueOf].
  - rewrite V1, B5. destruct (Rge_dec 0 (0.9 * l)); lra.
  - rewrite V2, B2, stepSum_before; [lra|].
    intros c Hin. apply in_seq in Hin.
    apply Rmult_lt_0_compat; [|exact Hc].
    apply lt_0_INR. lia.
  - rewrite V3, B1, stepSum_before; [lra|].
    intros j Hin. apply in_seq in Hin.
    destruct (costTimesFrom_bounds (upto maxFailures) (Rlt_le _ _ Hl) 42)
      as [_ Hall].
    unfold costFailTimes in *.
    assert (Hj := @Forall_at _ _ j Hall ltac:(lia)). cbv beta in Hj. lra.
  - rewrite V4, B2, stepSum_before; [lra|].
    intros tInt Hin. rewrite interventionTimes_values in Hin.
    cbn [In] in Hin. destruct Hin as [<-|[<-|[<-|[<-|[]]]]]; lra.
Qed.

Lemma X8_cost_starts_at_zero_witness :
  exists (c : Curves) (first : CurvePoint),
    fst (generateDashboardCurves defaultParams []) = Returns c /\
    nth_error (cost c) 0 = Some first /\
    cp_t first = 0 /\
    forall k, valueOf k first = 0.
Proof.
  apply (@X8_cost_starts_at_zero defaultParams []).
  - simpl. lia.
  - simpl. lra.
  - simpl. lra.
Defined.

(** X9.  For [points >= 2], a positive lifespan and a positive replacement
    cost (cycle length not zero), the cumulative cost of each of the four
    strategies never decreases from one sample of the cost curve to a later
    one. *)
Theorem X9_cost_never_decreases :
  forall (p : DashboardParams) (s : store),
    (2 <= points p)%Z -> 0 < lifespanYears p -> 0 < replacementCost p ->
    cycleLengthYears p <> 0 ->
    exists c : Curves,
      fst (generateDashboardCurves p s) = Returns c /\
      forall k, nonDecreasing k (cost c).
Proof.
  intros p s Hp Hl Hrc _. rewrite generateDashboardCurves_run. cbn [fst].
  rewrite dashboardOutcome_last by exact Hp.
  eexists. split; [reflexivity|]. cbn [cost curvesOf].
  intros k i j pi pj Hij Hi Hj.
  assert (Hjn : (j < Z.to_nat (points p))%nat).
  { unfold costCurveOf in Hj.
    rewrite <- (costCurve_length (lifespanYears p) (replacementCost p)
                  (cycleLengthYears p) (points p)).
    apply nth_error_Some. congruence. }
  unfold costCurveOf in Hi, Hj.
  rewrite costCurve_nth_error in Hi by lia.
  rewrite costCurve_nth_error in Hj by lia.
  injection Hi as <-. injection Hj as <-.
  set (l := lifespanYears p) in *. set (cyc := cycleLengthYears p) in *.
  set (rc := replacementCost p) in *.
  pose proof (costSample_values l rc cyc (points p) (costFailTimes l)
                (costFailCosts rc) (interventionTimes l) i) as Vi.
  pose proof (costSample_values l rc cyc (points p) (costFailTimes l)
                (costFailCosts rc) (interventionTimes l) j) as Vj.
  cbv zeta in Vi, Vj.
  set (ti := INR i / (IZR (points p) - 1) * l) in *.
  set (tj := INR j / (IZR (points p) - 1) * l) in *.
  assert (Ht : ti <= tj).
  { unfold ti, tj. apply IZR_le in Hp. apply le_INR in Hij.
    apply Rmult_le_compat_r; [lra|].
    apply Rmult_le_compat_r; [|exact Hij].
    left. apply Rinv_0_lt_compat. lra. }
  assert (Hbase : forall rate, 0 <= rate ->
            rate * rc * ti / l <= rate * rc * tj / l).
  { intros rate Hr. unfold Rdiv.
    apply Rmult_le_compat_r; [left; now apply Rinv_0_lt_compat|].
    apply Rmult_le_compat_l; [|exact Ht].
    apply Rmult_le_pos; lra. }
  destruct Vi as (I1 & I2 & I3 & I4). destruct Vj as (J1 & J2 & J3 & J4).
  destruct k; cbn [valueOf].
  - rewrite I1, J1. pose proof (Hbase 0.05 ltac:(lra)).
    destruct (Rge_dec ti (0.9 * l)), (Rge_dec tj (0.9 * l)); lra.
  - rewrite I2, J2. pose proof (Hbase 0.02 ltac:(lra)).
    pose proof (@stepSum_monotone nat (fun c => INR c * cyc)
                  (fun _ => 0.15 * rc) ti tj
                  (seq 1 (Z.to_nat (Zfloor (l / cyc)))) Ht
                  ltac:(intros; lra)).
    lra.
  - rewrite I3, J3. pose proof (Hbase 0.01 ltac:(lra)).
    assert (Hpos : forall a, In a (seq 0 (length (costFailTimes l))) ->
                             0 <= at_ (costFailCosts rc) a).
    { intros a _. apply at_nonneg. now apply costCostsFrom_nonneg. }
    pose proof (@stepSum_monotone nat (at_ (costFailTimes l))
                  (at_ (costFailCosts rc)) ti tj _ Ht Hpos).
    lra.
  - rewrite I4, J4. pose proof (Hbase 0.02 ltac:(lra)).
    pose proof (@stepSum_monotone R (fun tInt => tInt)
                  (fun _ => 0.2 * rc) ti tj (interventionTimes l) Ht
                  ltac:(intros; lra)).
    lra.
Qed.

Lemma X9_cost_never_decreases_witness :
  exists c : Curves,
    fst (generateDashboardCurves defaultParams []) = Returns c /\
    forall k, nonDecreasing k (cost c).
Proof.
  apply (@X9_cost_never_decreases defaultParams []).
  - simpl. lia.
  - simpl. lra.
  - simpl. lra.
  - simpl. lra.
Defined.

Section Totals.

Variable p : DashboardParams.
Hypothesis Hpoints : (2 <= points p)%Z.
Hypothesis Hlifespan : 0 < lifespanYears p.

(** The values of the last cost sample, taken at the end of life. *)
Lemma last_costSample_values :
  let l := lifespanYears p in
  let rc := replacementCost p in
  let pt := costSample l rc (cycleLengthYears p) (points p)
              (costFailTimes l) (costFailCosts rc) (interventionTimes l)
              (Z.to_nat (points p) - 1) in
  noFix pt = 0.05 * rc + rc /\
  fixInPlan pt
  = 0.02 * rc
    + stepSum l (fun c => INR c * cycleLengthYears p) (fun _ => 0.15 * rc)
        (seq 1 (Z.to_nat (Zfloor (l / cycleLengthYears p)))) /\
  fixOnFail pt
  = 0.01 * rc
    + stepSum l (at_ (costFailTimes l)) (at_ (costFailCosts rc))
        (seq 0 (length (costFailTimes l))) /\
  fixOnRisk pt
  = 0.02 * rc
    + stepSum l (fun tInt => tInt) (fun _ => 0.2 * rc) (interventionTimes l).
Proof.
  cbv zeta.
  pose proof (costSample_values (lifespanYears p) (replacementCost p)
                (cycleLengthYears p) (points p)
                (costFailTimes (lifespanYears p))
                (costFailCosts (replacementCost p))
                (interventionTimes (lifespanYears p))
                (Z.to_nat (points p) - 1)) as V.
  cbv zeta in V. rewrite (last_grid_point Hpoints), Rmult_1_l in V.
  destruct V as (V1 & V2 & V3 & V4).
  assert (B : forall rate,
            rate * replacementCost p * lifespanYears p / lifespanYears p
            = rate * replacementCost p)
    by (intros; field; lra).
  rewrite B in V1, V2, V3, V4.
  split; [|split; [|split]]; try assumption.
  rewrite V1. destruct (Rge_dec _ _); lra.
Qed.

End Totals.

(** X10.  For [points >= 2] and a positive lifespan (cycle length not
    zero), the total cost of No-Fix is 1.05 times the replacement cost (the
    full drift of 5% and the replacement), and the total cost of Fix-on-Risk
    is 0.82 times the replacement cost (the drift of 2% and the four
    interventions of 20% each, all of which fall before the end of life). *)
Theorem X10_total_cost_no_fix_and_fix_on_risk :
  forall (p : DashboardParams) (s : store),
    (2 <= points p)%Z -> 0 < lifespanYears p -> cycleLengthYears p <> 0 ->
    exists c : Curves,
      fst (generateDashboardCurves p s) = Returns c /\
      ByStrategy.noFix (totalCosts c) = 1.05 * replacementCost p /\
      ByStrategy.fixOnRisk (totalCosts c) = 0.82 * replacementCost p.
Proof.
  intros p s Hp Hl _. rewrite generateDashboardCurves_run. cbn [fst].
  rewrite dashboardOutcome_last by exact Hp.
  eexists. split; [reflexivity|].
  cbn [totalCosts curvesOf valuesOf ByStrategy.noFix ByStrategy.fixOnRisk].
  destruct (@last_costSample_values p Hp Hl) as (V1 & _ & _ & V4).
  cbv zeta in V1, V4. rewrite V1, V4. split; [lra|].
  rewrite stepSum_after.
  - rewrite interventionTimes_values. unfold total. cbn. lra.
  - intros tInt Hin. rewrite interventionTimes_values in Hin.
    cbn [In] in Hin. destruct Hin as [<-|[<-|[<-|[<-|[]]]]]; lra.
Qed.

Lemma X10_total_cost_no_fix_and_fix_on_risk_witness :
  exists c : Curves,
    fst (generateDashboardCurves defaultParams []) = Returns c /\
    ByStrategy.noFix (totalCosts c) = 1.05 * 1000000 /\
    ByStrategy.fixOnRisk (totalCosts c) = 0.82 * 1000000.
Proof.
  apply (@X10_total_cost_no_fix_and_fix_on_risk defaultParams []).
  - simpl. lia.
  - simpl. lra.
  - simpl. lra.
Defined.

Section WholeCycles.

(** The floor of a quotient of positive integers is their integer
    quotient. *)
Lemma Zfloor_quotient (L C : Z) :
  (0 < C)%Z -> Zfloor (IZR L / IZR C) = (L / C)%Z.
Proof.
  intros HC. apply Zfloor_eq.
  pose proof (Z.div_mod L C ltac:(lia)) as E.
  pose proof (Z.mod_pos_bound L C HC) as [M0 M1].
  assert (HCr : 0 < IZR C) by (apply IZR_lt in HC; exact HC).
  assert (EL : IZR L = IZR C * IZR (L / C) + IZR (L mod C)).
  { rewrite <- mult_IZR, <- plus_IZR. f_equal. exact E. }
  apply IZR_le in M0. apply IZR_lt in M1.
  pose proof (Rinv_0_lt_compat _ HCr) as Hinv.
  assert (Eq : IZR L / IZR C = IZR (L / C) + IZR (L mod C) / IZR C).
  { rewrite EL. field. lra. }
  rewrite Eq.
  assert (0 <= IZR (L mod C) / IZR C < 1).
  { unfold Rdiv. split.
    - apply Rmult_le_pos; lra.
    - apply Rmult_lt_reg_r with (IZR C); [exact HCr|].
      rewrite Rmult_assoc, Rinv_l by lra. lra. }
  lra.
Qed.

End WholeCycles.

(** X11.  For [points >= 2] and a lifespan and a cycle length that are
    positive whole numbers of years, as the sliders of the dashboard give
    them, the total cost of Fix-in-Plan is the drift of 2% of the
    replacement cost plus 15% of the replacement cost for each of the
    maintenance cycles, whose number is the integer quotient of the lifespan
    by the cycle length. *)
Theorem X11_total_cost_fix_in_plan :
  forall (p : DashboardParams) (s : store) (L C : Z),
    (2 <= points p)%Z -> (0 < L)%Z -> (0 < C)%Z ->
    lifespanYears p = IZR L -> cycleLengthYears p = IZR C ->
    exists c : Curves,
      fst (generateDashboardCurves p s) = Returns c /\
      ByStrategy.fixInPlan (totalCosts c)
      = 0.02 * replacementCost p
        + IZR (L / C) * (0.15 * replacementCost p).
Proof.
  intros p s L C Hp HL HC EL EC.
  assert (Hl : 0 < lifespanYears p) by (rewrite EL; now apply IZR_lt).
  assert (Hc : 0 < cycleLengthYears p) by (rewrite EC; now apply IZR_lt).
  rewrite generateDashboardCurves_run. cbn [fst].
  rewrite dashboardOutcome_last by exact Hp.
  eexists. split; [reflexivity|].
  cbn [totalCosts curvesOf valuesOf ByStrategy.fixInPlan].
  destruct (@last_costSample_values p Hp Hl) as (_ & V2 & _ & _).
  cbv zeta in V2. rewrite V2. f_equal.
  rewrite <- (Zfloor_quotient L HC), <- EL, <- EC.
  set (q := lifespanYears p / cycleLengthYears p).
  assert (Hq : 0 < q) by (unfold q; now apply Rdiv_lt_0_compat).
  assert (Hn : (0 <= Zfloor q)%Z) by (apply Zfloor_lub; simpl; lra).
  destruct (Zfloor_bound q) as [Hfl _].
  rewrite stepSum_after.
  - rewrite total_constant, length_seq, INR_IZR_INZ, Z2Nat.id by exact Hn.
    reflexivity.
  - intros c Hin. apply in_seq in Hin.
    assert (Hle : INR c <= IZR (Zfloor q)).
    { rewrite INR_IZR_INZ. apply IZR_le. lia. }
    assert (Hcq : INR c <= q) by lra.
    replace (lifespanYears p) with (q * cycleLengthYears p)
      by (unfold q; field; lra).
    apply Rmult_le_compat_r; lra.
Qed.

Lemma X11_total_cost_fix_in_plan_witness :
  exists c : Curves,
    fst (generateDashboardCurves defaultParams []) = Returns c /\
    ByStrategy.fixInPlan (totalCosts c)
    = 0.02 * 1000000 + IZR (30 / 5) * (0.15 * 1000000).
Proof.
  apply (@X11_total_cost_fix_in_plan defaultParams [] 30%Z 5%Z).
  - simpl. lia.
  - lia.
  - lia.
  - reflexivity.
  - reflexivity.
Defined.

(** X12.  For [points >= 2], a positive lifespan and a positive replacement
    cost (cycle length not zero), the total cost of Fix-on-Fail is the drift
    of 1% of the replacement cost plus all five repair costs of the failure
    schedule; it is at least 1.51 and strictly below 2.51 times the
    replacement cost. *)
Theorem X12_total_cost_fix_on_fail :
  forall (p : DashboardParams) (s : store),
    (2 <= points p)%Z -> 0 < lifespanYears p -> 0 < replacementCost p ->
    cycleLengthYears p <> 0 ->
    exists c : Curves,
      fst (generateDashboardCurves p s) = Returns c /\
      ByStrategy.fixOnFail (totalCosts c)
      = 0.01 * replacementCost p
        + total (snd (fst (costFailureSchedule (lifespanYears p)
                             (replacementCost p) s))) /\
      1.51 * replacementCost p <= ByStrategy.fixOnFail (totalCosts c)
      < 2.51 * replacementCost p.
Proof.
  intros p s Hp Hl Hrc _. rewrite generateDashboardCurves_run. cbn [fst].
  rewrite dashboardOutcome_last by exact Hp.
  rewrite costFailureSchedule_run. cbn [fst snd].
  eexists. split; [reflexivity|].
  cbn [totalCosts curvesOf valuesOf ByStrategy.fixOnFail].
  destruct (@last_costSample_values p Hp Hl) as (_ & _ & V3 & _).
  cbv zeta in V3. rewrite V3.
  destruct (costTimesFrom_bounds (upto maxFailures) (Rlt_le _ _ Hl) 42)
    as [Lt Bt].
  destruct (costCostsFrom_bounds (upto maxFailures) Hrc 42) as [Lc Bc].
  fold (costFailTimes (lifespanYears p)) in Lt, Bt.
  fold (costFailCosts (replacementCost p)) in Lc, Bc.
  assert (E : stepSum (lifespanYears p) (at_ (costFailTimes (lifespanYears p)))
                (at_ (costFailCosts (replacementCost p)))
                (seq 0 (length (costFailTimes (lifespanYears p))))
              = total (costFailCosts (replacementCost p))).
  { rewrite stepSum_after.
    - replace (length (costFailTimes (lifespanYears p)))
        with (length (costFailCosts (replacementCost p))) by congruence.
      apply total_at.
    - intros j Hin. apply in_seq in Hin.
      assert (Hj := @Forall_at _ _ j Bt ltac:(lia)). cbv beta in Hj. lra. }
  rewrite E. split; [reflexivity|].
  assert (Hne : costFailCosts (replacementCost p) <> []).
  { intros C. rewrite C in Lc. discriminate. }
  pose proof (total_bounds Bc Hne) as HB. rewrite Lc in HB.
  change (INR (length (upto maxFailures))) with (INR 5) in HB.
  simpl INR in HB. lra.
Qed.

Lemma X12_total_cost_fix_on_fail_witness :
  exists c : Curves,
    fst (generateDashboardCurves defaultParams []) = Returns c /\
    ByStrategy.fixOnFail (totalCosts c)
    = 0.01 * 1000000
      + total (snd (fst (costFailureSchedule 30 1000000 []))) /\
    1.51 * 1000000 <= ByStrategy.fixOnFail (totalCosts c) < 2.51 * 1000000.
Proof.
  apply (@X12_total_cost_fix_on_fail defaultParams []).
  - simpl. lia.
  - simpl. lra.
  - simpl. lra.
  - simpl. lra.
Defined.

(** ** Risk curves *)

(** X13.  The [while] loop of the Fix-on-Fail risk, started at an index
    inside the failure schedule, stops with its condition false: the index
    never moves back and never passes the end of the schedule, every failure
    it has passed lies strictly before [t], and the failure it stops at, if
    any is left, does not.  When it passes no failure it leaves
    [lastFailureTime] and the likelihood as they were; otherwise
    [lastFailureTime] is the last failure passed and the likelihood is twice
    the baseline. *)
Theorem X13_pass_failures_exit :
  forall (failTimes : list R) (t baselineLof lastFailureTime : R)
         (failureIndex : nat) (lofFixOnFail : R),
    (failureIndex <= length failTimes)%nat ->
    let r := passFailures (length failTimes) failTimes t baselineLof
               lastFailureTime failureIndex lofFixOnFail in
    let last' := fst (fst r) in
    let index' := snd (fst r) in
    let lof' := snd r in
    (failureIndex <= index' <= length failTimes)%nat /\
    (forall j failTime, (failureIndex <= j < index')%nat ->
       nth_error failTimes j = Some failTime -> failTime < t) /\
    (forall failTime, nth_error failTimes index' = Some failTime ->
       t <= failTime) /\
    (index' = failureIndex ->
     last' = lastFailureTime /\ lof' = lofFixOnFail) /\
    ((failureIndex < index')%nat ->
     nth_error failTimes (index' - 1) = Some last' /\
     lof' = baselineLof * 2).
Proof.
  intros failTimes t b.
  assert (G : forall fuel last idx lof,
            (idx <= length failTimes)%nat ->
            (length failTimes - idx <= fuel)%nat ->
            let r := passFailures fuel failTimes t b last idx lof in
            (idx <= snd (fst r) <= length failTimes)%nat /\
            (forall j failTime, (idx <= j < snd (fst r))%nat ->
               nth_error failTimes j = Some failTime -> failTime < t) /\
            (forall failTime, nth_error failTimes (snd (fst r)) = Some failTime ->
               t <= failTime) /\
            (snd (fst r) = idx -> fst (fst r) = last /\ snd r = lof) /\
            ((idx < snd (fst r))%nat ->
             nth_error failTimes (snd (fst r) - 1) = Some (fst (fst r)) /\
             snd r = b * 2)).
  { induction fuel as [|fuel IH]; intros last idx lof Hidx Hfuel;
      cbn [passFailures]; cbv zeta.
    - cbn [fst snd]. assert (idx = length failTimes) by lia. subst idx.
      split; [lia|]. split; [intros; lia|]. split.
      + intros failTime H.
        assert (C : nth_error failTimes (length failTimes) = None)
          by (apply nth_error_None; lia).
        congruence.
      + split; [intros; split; reflexivity | intros; lia].
    - destruct (nth_error failTimes idx) as [failTime|] eqn:E.
      + destruct (Rgt_dec t failTime) as [Hgt|Hle].
        * assert (Hlt : (idx < length failTimes)%nat)
            by (apply nth_error_Some; congruence).
          specialize (IH failTime (S idx) (b * 2) ltac:(lia) ltac:(lia)).
          cbv zeta in IH.
          set (r := passFailures fuel failTimes t b failTime (S idx) (b * 2))
            in *.
          destruct IH as (I1 & I2 & I3 & I4 & I5).
          split; [lia|]. split.
          { intros j f Hj Hf. destruct (Nat.eq_dec j idx) as [->|Hne].
            - rewrite E in Hf. injection Hf as <-. exact Hgt.
            - apply (I2 j); [lia | exact Hf]. }
          split; [exact I3|]. split; [lia|].
          intros _. destruct (Nat.eq_dec (snd (fst r)) (S idx)) as [Heq|Hne].
          { destruct (I4 Heq) as [-> ->]. rewrite Heq.
            replace (S idx - 1)%nat with idx by lia. now split. }
          { apply I5. lia. }
        * cbn [fst snd].
          split; [lia|]. split; [intros; lia|]. split.
          { intros f Hf. rewrite E in Hf. injection Hf as <-. lra. }
          split; [intros; split; reflexivity | intros; lia].
      + cbn [fst snd].
        split; [lia|]. split; [intros; lia|]. split.
        { intros f Hf. congruence. }
        split; [intros; split; reflexivity | intros; lia]. }
  intros last idx lof Hidx. apply G; lia.
Qed.

Lemma X13_pass_failures_exit_witness :
  let r := passFailures 2 [1; 2] 1.5 0.1 0 0 0.1 in
  (0 <= snd (fst r) <= 2)%nat /\
  (forall j failTime, (0 <= j < snd (fst r))%nat ->
     nth_error [1; 2] j = Some failTime -> failTime < 1.5) /\
  (forall failTime, nth_error [1; 2] (snd (fst r)) = Some failTime ->
     1.5 <= failTime) /\
  (snd (fst r) = 0%nat -> fst (fst r) = 0 /\ snd r = 0.1) /\
  ((0 < snd (fst r))%nat ->
   nth_error [1; 2] (snd (fst r) - 1) = Some (fst (fst r)) /\
   snd r = 0.1 * 2).
Proof.
  apply (@X13_pass_failures_exit [1; 2] 1.5 0.1 0 0%nat 0.1).
  simpl. lia.
Defined.

Section RiskBounds.

Variables (lifespan riskAlpha minLof cof cycleLength threshold : R).
Variables (points : Z) (failTimes : list R).
Hypothesis Hcof : 0 < cof.

Let sample :=
  riskSample lifespan riskAlpha minLof cof cycleLength threshold points
    failTimes.

Lemma riskSample_fixOnFail_bounds (st : riskState) (i : nat) :
  0 <= minLof <= 0.25 ->
  minLof * 2 * cof <= fixOnFail (fst (sample st i)) <= cof.
Proof.
  intros Hm. unfold sample, riskSample.
  pose proof (passFailures_lof (length failTimes) failTimes
                (INR i / (IZR points - 1) * lifespan) (minLof * 2)
                (lastFailureTime st) (failureIndex st) (minLof * 2)) as Hpass.
  destruct (passFailures _ _ _ _ _ _ _) as [[last idx] lof].
  cbn [snd] in Hpass. cbn [fst fixOnFail].
  set (v := if Rlt_dec _ _ then _ else _).
  assert (Hv : minLof * 2 <= v <= 1).
  { unfold v. destruct (Rlt_dec _ _) as [_|_].
    - pose proof (logisticCurve_unit
                    ((INR i / (IZR points - 1) * lifespan - last)
                     / orOne (match nth_error failTimes idx with
                              | Some failTime => failTime
                              | None => lifespan
                              end - last))
                    (2 * riskAlpha) 0.6) as HL.
      set (L := logisticCurve _ _ _) in *.
      split.
      + apply Rmin_glb; [nra | lra].
      + eapply Rle_trans; [apply Rmin_r | lra].
    - destruct (Req_dec_T _ _); [lra|].
      destruct Hpass as [-> | ->]; lra. }
  split; [apply Rmult_le_compat_r; lra|].
  rewrite <- (Rmult_1_l cof) at 2. apply Rmult_le_compat_r; lra.
Qed.

Lemma planLof_bounds (x t : R) :
  0 <= x <= 1 -> 0 <= minLof <= 0.3 ->
  minLof <= planLof minLof cycleLength x t <= 0.45 - 0.5 * minLof.
Proof.
  intros Hx Hm. unfold planLof. cbv zeta.
  pose proof (COS_bound (2 * PI * (remainder t cycleLength / cycleLength)))
    as [Hc1 Hc2].
  set (c := cos _) in *.
  set (w := (1 - c) / 2).
  assert (Hw : 0 <= w <= 1) by (unfold w; lra).
  replace (minLof + (0.3 - minLof) * (1 + 0.5 * x) - minLof)
    with ((0.3 - minLof) * (1 + 0.5 * x)) by ring.
  assert (H0 : 0 <= (1 + 0.5 * x) * w) by (apply Rmult_le_pos; lra).
  assert (Hk : (1 + 0.5 * x) * w <= 1.5) by nra.
  replace ((0.3 - minLof) * (1 + 0.5 * x) * w)
    with ((0.3 - minLof) * ((1 + 0.5 * x) * w)) by ring.
  set (k := (1 + 0.5 * x) * w) in *. nra.
Qed.

Lemma sawtoothNext_floor (x current : R) :
  0 <= riskAlpha -> 0 <= x -> minLof * 1.5 <= current ->
  minLof * 1.5 <= sawtoothNext riskAlpha minLof threshold x current.
Proof.
  intros Ha Hx Hc. unfold sawtoothNext. cbv zeta.
  assert (0 <= 0.001 * riskAlpha * (1 + 2 * x))
    by (apply Rmult_le_pos; [apply Rmult_le_pos|]; lra).
  destruct (Rge_dec _ _); lra.
Qed.

Lemma sawtoothNext_reset (x current : R) :
  0 <= riskAlpha -> 0 <= x -> threshold <= minLof * 1.5 ->
  minLof * 1.5 <= current ->
  sawtoothNext riskAlpha minLof threshold x current = minLof * 1.5.
Proof.
  intros Ha Hx Ht Hc. unfold sawtoothNext. cbv zeta.
  assert (0 <= 0.001 * riskAlpha * (1 + 2 * x))
    by (apply Rmult_le_pos; [apply Rmult_le_pos|]; lra).
  destruct (Rge_dec _ _); lra.
Qed.

End RiskBounds.

Lemma grid_nonneg (points : Z) (i : nat) :
  (2 <= points)%Z -> 0 <= INR i / (IZR points - 1).
Proof.
  intros Hp. apply IZR_le in Hp. pose proof (pos_INR i).
  apply Rmult_le_pos; [assumption|].
  left. apply Rinv_0_lt_compat. lra.
Qed.

(** A property of every sample of the risk curve that follows from the
    loop counter alone. *)
Lemma riskCurve_Forall (P : CurvePoint -> Prop)
    lifespan riskAlpha minLof cof cycleLength threshold points :
  (forall st i, (i < Z.to_nat points)%nat ->
     P (fst (riskSample lifespan riskAlpha minLof cof cycleLength threshold
               points (sort (riskFailTimes lifespan)) st i))) ->
  Forall P
    (riskCurve lifespan riskAlpha minLof cof cycleLength threshold points).
Proof.
  intros H. unfold riskCurve.
  apply Forall2_Forall_r with (P := fun (_ : nat) pt => P pt)
                              (xs := upto points);
    [|intros a b _ HP; exact HP].
  apply riskRun_invariant with (Inv := fun _ => True); [|exact I].
  intros st i Hi _. split; [|exact I]. apply H. now apply upto_In.
Qed.

(** X14.  For a floor between 0 and 0.25 and a positive consequence
    ([points >= 2], lifespan and cycle length not zero), every Fix-on-Fail
    risk value of the returned record lies between twice the floor times
    the consequence and the consequence itself. *)
Theorem X14_fix_on_fail_risk_bounds :
  forall (p : DashboardParams) (s : store),
    (2 <= points p)%Z -> lifespanYears p <> 0 -> cycleLengthYears p <> 0 ->
    0 < replacementCost p -> 0 <= minLof p <= 0.25 ->
    exists c : Curves,
      fst (generateDashboardCurves p s) = Returns c /\
      Forall (fun pt => minLof p * 2 * replacementCost p <= fixOnFail pt
                        <= replacementCost p) (risk c).
Proof.
  intros p s Hp _ _ Hc Hm. rewrite generateDashboardCurves_run. cbn [fst].
  rewrite dashboardOutcome_last by exact Hp.
  eexists. split; [reflexivity|]. cbn [risk curvesOf]. unfold riskCurveOf.
  apply riskCurve_Forall. intros st i _.
  now apply riskSample_fixOnFail_bounds.
Qed.

Lemma X14_fix_on_fail_risk_bounds_witness :
  exists c : Curves,
    fst (generateDashboardCurves defaultParams []) = Returns c /\
    Forall (fun pt => 0.05 * 2 * 1000000 <= fixOnFail pt <= 1000000) (risk c).
Proof.
  apply (@X14_fix_on_fail_risk_bounds defaultParams []).
  - simpl. lia.
  - simpl. lra.
  - simpl. lra.
  - simpl. lra.
  - simpl. lra.
Defined.

(** X15.  For a floor between 0 and 0.3 and a positive consequence
    ([points >= 2], lifespan and cycle length not zero), every Fix-in-Plan
    risk value of the returned record lies between the floor times the
    consequence and [(0.45 - 0.5 * minLof)] times the consequence. *)
Theorem X15_fix_in_plan_risk_bounds :
  forall (p : DashboardParams) (s : store),
    (2 <= points p)%Z -> lifespanYears p <> 0 -> cycleLengthYears p <> 0 ->
    0 < replacementCost p -> 0 <= minLof p <= 0.3 ->
    exists c : Curves,
      fst (generateDashboardCurves p s) = Returns c /\
      Forall (fun pt => minLof p * replacementCost p <= fixInPlan pt
                        <= (0.45 - 0.5 * minLof p) * replacementCost p)
        (risk c).
Proof.
  intros p s Hp _ _ Hc Hm. rewrite generateDashboardCurves_run. cbn [fst].
  rewrite dashboardOutcome_last by exact Hp.
  eexists. split; [reflexivity|]. cbn [risk curvesOf]. unfold riskCurveOf.
  apply riskCurve_Forall. intros st i Hi.
  rewrite riskSample_fixInPlan.
  pose proof (@grid_unit (points p) Hp i Hi) as Hx.
  pose proof (@planLof_bounds (minLof p) (cycleLengthYears p)
                (INR i / (IZR (points p) - 1))
                (INR i / (IZR (points p) - 1) * lifespanYears p) Hx Hm)
    as [Hlo Hhi].
  split; apply Rmult_le_compat_r; lra.
Qed.

Lemma X15_fix_in_plan_risk_bounds_witness :
  exists c : Curves,
    fst (generateDashboardCurves defaultParams []) = Returns c /\
    Forall (fun pt => 0.05 * 1000000 <= fixInPlan pt
                      <= (0.45 - 0.5 * 0.05) * 1000000) (risk c).
Proof.
  apply (@X15_fix_in_plan_risk_bounds defaultParams []).
  - simpl. lia.
  - simpl. lra.
  - simpl. lra.
  - simpl. lra.
  - simpl. lra.
Defined.

(** X16.  For a steepness that is not negative and a positive consequence
    ([points >= 2], lifespan and cycle length not zero), the Fix-on-Risk
    risk never falls below the reset level, 1.5 times the floor times the
    consequence.  When the threshold is at or below 1.5 times the floor the
    likelihood is reset at every sample, and the Fix-on-Risk risk is that
    reset level at every sample. *)
Theorem X16_fix_on_risk_reset_level :
  forall (p : DashboardParams) (s : store),
    (2 <= points p)%Z -> lifespanYears p <> 0 -> cycleLengthYears p <> 0 ->
    0 < replacementCost p -> 0 <= riskAlpha p ->
    exists c : Curves,
      fst (generateDashboardCurves p s) = Returns c /\
      Forall (fun pt => minLof p * 1.5 * replacementCost p <= fixOnRisk pt)
        (risk c) /\
      (threshold p <= minLof p * 1.5 ->
       Forall (fun pt => fixOnRisk pt = minLof p * 1.5 * replacementCost p)
         (risk c)).
Proof.
  intros p s Hp _ _ Hc Ha. rewrite generateDashboardCurves_run. cbn [fst].
  rewrite dashboardOutcome_last by exact Hp.
  eexists. split; [reflexivity|]. cbn [risk curvesOf].
  unfold riskCurveOf, riskCurve.
  split.
  - apply Forall2_Forall_r
      with (P := fun (_ : nat) pt =>
                   minLof p * 1.5 * replacementCost p <= fixOnRisk pt)
           (xs := upto (points p));
      [|intros a b _ H; exact H].
    apply riskRun_invariant
      with (Inv := fun st => minLof p * 1.5 <= currentLof st);
      [|cbn; lra].
    intros st i _ Hst.
    destruct (riskSample_fixOnRisk (lifespanYears p) (riskAlpha p) (minLof p)
                (replacementCost p) (cycleLengthYears p) (threshold p)
                (points p) (sort (riskFailTimes (lifespanYears p))) st i)
      as [Hnext ->].
    rewrite Hnext.
    pose proof (@sawtoothNext_floor (riskAlpha p) (minLof p) (threshold p)
                  (INR i / (IZR (points p) - 1)) (currentLof st) Ha
                  (grid_nonneg i Hp) Hst) as Hfl.
    split; [apply Rmult_le_compat_r; lra | exact Hfl].
  - intros Hth.
    apply Forall2_Forall_r
      with (P := fun (_ : nat) pt =>
                   fixOnRisk pt = minLof p * 1.5 * replacementCost p)
           (xs := upto (points p));
      [|intros a b _ H; exact H].
    apply riskRun_invariant
      with (Inv := fun st => minLof p * 1.5 <= currentLof st);
      [|cbn; lra].
    intros st i _ Hst.
    destruct (riskSample_fixOnRisk (lifespanYears p) (riskAlpha p) (minLof p)
                (replacementCost p) (cycleLengthYears p) (threshold p)
                (points p) (sort (riskFailTimes (lifespanYears p))) st i)
      as [Hnext ->].
    rewrite Hnext.
    rewrite (@sawtoothNext_reset (riskAlpha p) (minLof p) (threshold p)
               (INR i / (IZR (points p) - 1)) (currentLof st) Ha
               (grid_nonneg i Hp) Hth Hst).
    split; [reflexivity | lra].
Qed.

Lemma X16_fix_on_risk_reset_level_witness :
  exists c : Curves,
    fst (generateDashboardCurves defaultParams []) = Returns c /\
    Forall (fun pt => 0.05 * 1.5 * 1000000 <= fixOnRisk pt) (risk c) /\
    (0.4 <= 0.05 * 1.5 ->
     Forall (fun pt => fixOnRisk pt = 0.05 * 1.5 * 1000000) (risk c)).
Proof.
  apply (@X16_fix_on_risk_reset_level defaultParams []).
  - simpl. lia.
  - simpl. lra.
  - simpl. lra.
  - simpl. lra.
  - simpl. lra.
Defined.

(** ** Summary metrics *)

Section Means.



End Means.



Section LastElement.

Lemma nth_error_last {A : Type} (xs : list A) (a d : A) :
  nth_error (a :: xs) (length xs) = Some (last (a :: xs) d).
Proof.
  revert a. induction xs as [|b xs IH]; intros a; [reflexivity|].
  cbn [length nth_error]. rewrite IH. reflexivity.
Qed.

End LastElement.

(** X18.  [calculateTotalCosts] throws a [TypeError] on an empty cost curve
    and on no other; on a curve with at least one point it returns the four
    values of the last point. *)
Theorem X18_total_costs_of_last_point :
  forall (costPoints : list CurvePoint) (d : CurvePoint),
    calculateTotalCosts costPoints
    = match costPoints with
      | [] => Throws TypeError
      | _ :: _ => Returns (valuesOf (last costPoints d))
      end.
Proof.
  intros [|a xs] d; [reflexivity|].
  apply calculateTotalCosts_last with (i := length xs); [reflexivity|].
  apply nth_error_last.
Qed.

Section Sorting.

Lemma insert_permutation (a : R) (xs : list R) :
  Permutation (a :: xs) (insert a xs).
Proof.
  induction xs as [|b xs IH]; cbn [insert]; [reflexivity|].
  destruct (Rle_dec a b); [reflexivity|].
  rewrite perm_swap. now apply perm_skip.
Qed.

Lemma insert_ascending (a : R) (xs : list R) :
  ascending xs -> ascending (insert a xs).
Proof.
  induction xs as [|b xs IH]; intros H; cbn [insert]; [exact I|].
  destruct (Rle_dec a b) as [Hab|Hab]; [split; assumption|].
  destruct xs as [|c xs].
  - cbn. split; [lra | exact I].
  - destruct H as [Hbc H]. specialize (IH H). cbn [insert] in *.
    destruct (Rle_dec a c); split; try assumption; lra.
Qed.

End Sorting.

(** X19.  The sort applied to the failure times of the risk generator
    returns the same numbers, each as often as before, in ascending
    order. *)
Theorem X19_sort_ascending_permutation :
  forall xs : list R, Permutation xs (sort xs) /\ ascending (sort xs).
Proof.
  induction xs as [|a xs [IHp IHa]]; cbn [sort].
  - split; [constructor | exact I].
  - split.
    + rewrite <- insert_permutation. now apply perm_skip.
    + now apply insert_ascending.
Qed.

(** ** The recommendation *)

(** X20.  The dashboard recommends a strategy of [strategyMeta] whose score
    (total cost plus average risk) is the least of the four; among
    strategies with that least score it recommends the one listed first. *)
Theorem X20_recommended_least_score :
  forall curves : Curves,
    exists best : StrategyMeta,
      recommended curves = Some best /\
      In best strategyMeta /\
      forall m, In m strategyMeta ->
        scoreOf curves (key best) <= scoreOf curves (key m) /\
        (scoreOf curves (key m) = scoreOf curves (key best) ->
         (rank (key best) <= rank (key m))%nat).
Proof.
  intros curves. unfold recommended, strategyMeta.
  cbn [fold_left below key].
  set (s0 := scoreOf curves NoFix). set (s1 := scoreOf curves FixInPlan).
  set (s2 := scoreOf curves FixOnFail). set (s3 := scoreOf curves FixOnRisk).
  repeat match goal with
         | |- context [Rlt_dec ?a ?b] =>
             destruct (Rlt_dec a b); cbn [below fst snd]
         end;
    (eexists; split; [reflexivity|]; split; [cbn; tauto|];
     intros m Hm; cbn [In] in Hm;
     destruct Hm as [<-|[<-|[<-|[<-|[]]]]]; cbn [key rank];
     fold s0 s1 s2 s3; (split; [lra | intros; first [lia | lra]])).
Qed.

(** ** Cycle boundaries and the No-Fix step *)

Section Remainder.

Lemma remainder_multiple (k : Z) (b : R) :
  (0 <= k)%Z -> b <> 0 -> remainder (IZR k * b) b = 0.
Proof.
  intros Hk Hb. unfold remainder, truncate.
  replace (IZR k * b / b) with (IZR k) by (field; exact Hb).
  apply IZR_le in Hk.
  destruct (Rle_dec 0 (IZR k)) as [_|C]; [|contradiction].
  rewrite ZfloorZ. ring.
Qed.

Lemma remainder_bounds (a b : R) :
  0 <= a -> 0 < b -> 0 <= remainder a b < b.
Proof.
  intros Ha Hb. unfold remainder, truncate.
  assert (Hq : 0 <= a / b).
  { apply Rmult_le_pos; [exact Ha|]. left. now apply Rinv_0_lt_compat. }
  destruct (Rle_dec 0 (a / b)) as [_|C]; [|contradiction].
  destruct (Zfloor_bound (a / b)) as [Hlo Hhi].
  assert (Ea : a = a / b * b) by (field; lra).
  set (q := a / b) in *. set (f := IZR (Zfloor q)) in *.
  rewrite Ea. split; nra.
Qed.

End Remainder.

(** X21.  Planned maintenance brings the risk back to the floor: for a
    positive cycle length, at a sample whose time is a whole number of
    cycles the likelihood wave is at its trough and the Fix-in-Plan risk is
    the floor times the consequence.  In between, for any time [t] that is
    not negative, the position within the cycle that the wave is computed
    from is at least 0 and strictly below 1. *)
Theorem X21_fix_in_plan_at_cycle_boundary :
  forall (lifespan riskAlpha minLof cof cycleLength threshold : R)
         (points : Z) (failTimes : list R) (st : riskState) (i : nat)
         (k : Z) (t : R),
    0 < cycleLength -> (0 <= k)%Z ->
    INR i / (IZR points - 1) * lifespan = IZR k * cycleLength ->
    0 <= t ->
    fixInPlan
      (fst (riskSample lifespan riskAlpha minLof cof cycleLength threshold
              points failTimes st i))
    = minLof * cof /\
    0 <= remainder t cycleLength / cycleLength < 1.
Proof.
  intros l a m cof cyc th pts ft st i k t Hcpos Hk Ht Ht0. split.
  - rewrite riskSample_fixInPlan, Ht. unfold planLof. cbv zeta.
    rewrite remainder_multiple by (assumption || lra).
    replace (2 * PI * (0 / cyc)) with 0 by (unfold Rdiv; ring).
    rewrite cos_0. lra.
  - destruct (remainder_bounds Ht0 Hcpos) as [Hlo Hhi].
    pose proof (Rinv_0_lt_compat _ Hcpos) as Hinv.
    unfold Rdiv. split.
    + apply Rmult_le_pos; lra.
    + apply Rmult_lt_reg_r with cyc; [exact Hcpos|].
      rewrite Rmult_assoc, Rinv_l by lra. lra.
Qed.

Lemma X21_fix_in_plan_at_cycle_boundary_witness :
  fixInPlan
    (fst (riskSample 30 6 0.05 1000000 5 0.4 500 [] (riskInit 0.05) 0))
  = 0.05 * 1000000 /\
  0 <= remainder 7 5 / 5 < 1.
Proof.
  apply (@X21_fix_in_plan_at_cycle_boundary 30 6 0.05 1000000 5 0.4 500 []
           (riskInit 0.05) 0%nat 0%Z 7).
  - lra.
  - lia.
  - simpl. lra.
  - lra.
Defined.

(** X22.  The No-Fix cost has one step.  For [points >= 2], a positive
    lifespan and a positive replacement cost (cycle length not zero), a
    sample taken before 0.9 times the lifespan costs its linear drift alone,
    which is below 4.5% of the replacement cost, and a sample taken at or
    after that time costs the drift plus the full replacement cost, at
    least 104.5% of the replacement cost. *)
Theorem X22_no_fix_cost_step :
  forall (p : DashboardParams) (s : store),
    (2 <= points p)%Z -> 0 < lifespanYears p -> 0 < replacementCost p ->
    cycleLengthYears p <> 0 ->
    exists c : Curves,
      fst (generateDashboardCurves p s) = Returns c /\
      Forall
        (fun pt =>
           (cp_t pt < 0.9 * lifespanYears p ->
            noFix pt = 0.05 * replacementCost p * cp_t pt / lifespanYears p /\
            noFix pt < 0.045 * replacementCost p) /\
           (0.9 * lifespanYears p <= cp_t pt ->
            noFix pt
            = 0.05 * replacementCost p * cp_t pt / lifespanYears p
              + replacementCost p /\
            1.045 * replacementCost p <= noFix pt))
        (cost c).
Proof.
  intros p s Hp Hl Hrc _. rewrite generateDashboardCurves_run. cbn [fst].
  rewrite dashboardOutcome_last by exact Hp.
  eexists. split; [reflexivity|]. cbn [cost curvesOf].
  unfold costCurveOf, costCurve. apply Forall_map, Forall_forall.
  intros i _.
  set (pt := costSample _ _ _ _ _ _ _ i).
  assert (Hdrift : forall t,
            0.05 * replacementCost p * t / lifespanYears p
            = 0.05 * replacementCost p * (t / lifespanYears p))
    by (intros; unfold Rdiv; ring).
  pose proof (Rinv_0_lt_compat _ Hl) as Hinv.
  split; intros Ht.
  - unfold pt in *. rewrite costSample_noFix_before by exact Ht.
    split; [reflexivity|]. fold pt in Ht |- *. rewrite Hdrift.
    assert (cp_t pt / lifespanYears p < 0.9).
    { apply Rmult_lt_reg_r with (lifespanYears p); [exact Hl|].
      unfold Rdiv. rewrite Rmult_assoc, Rinv_l by lra. lra. }
    nra.
  - unfold pt in *. rewrite costSample_noFix_after by exact Ht.
    split; [reflexivity|]. fold pt in Ht |- *. rewrite Hdrift.
    assert (0.9 <= cp_t pt / lifespanYears p).
    { apply Rmult_le_reg_r with (lifespanYears p); [exact Hl|].
      unfold Rdiv. rewrite Rmult_assoc, Rinv_l by lra. lra. }
    nra.
Qed.

Lemma X22_no_fix_cost_step_witness :
  exists c : Curves,
    fst (generateDashboardCurves defaultParams []) = Returns c /\
    Forall
      (fun pt =>
         (cp_t pt < 0.9 * 30 ->
          noFix pt = 0.05 * 1000000 * cp_t pt / 30 /\
          noFix pt < 0.045 * 1000000) /\
         (0.9 * 30 <= cp_t pt ->
          noFix pt = 0.05 * 1000000 * cp_t pt / 30 + 1000000 /\
          1.045 * 1000000 <= noFix pt))
      (cost c).
Proof.
  apply (@X22_no_fix_cost_step defaultParams []).
  - simpl. lia.
  - simpl. lra.
  - simpl. lra.
  - simpl. lra.
Defined.
